(** * Chapter navigation of the 3D storytelling front end

    A shallow embedding of [src/chapters/chapter-navigation.js]: the
    persisted [chapterId] parameter, the chapter store, the autoplay timer
    and the DOM surfaces the navigation code writes to, followed by the
    properties of the navigation state machine. *)

From Stdlib Require Import ZArith QArith Qcanon List String Ascii Bool Lia.
Import ListNotations.

Local Open Scope Z_scope.

(** ** JavaScript numbers

    The navigation code only ever adds or subtracts one and compares with
    [<], [>=] and [===].  Numbers are kept as exact values: [NaN], the two
    infinities and the finite rationals ([-0] is identified with [0], which
    no operation of this module distinguishes).  The binary64 rounding of
    the language is left out: a decimal text reads as its exact value and
    [x + 1], [x - 1] are exact, which is what the language computes on
    every integer below 2^53, chapter positions among them. *)
Module JS.

Inductive number : Type :=
| NaN
| PosInf
| NegInf
| Fin (q : Q).

Definition ofZ (z : Z) : number := Fin (inject_Z z).
Definition ofNat (n : nat) : number := ofZ (Z.of_nat n).

Definition Qltb (x y : Q) : bool := (Qnum x * QDen y <? Qnum y * QDen x)%Z.

(** [x + y] *)
Definition add (x y : number) : number :=
  match x, y with
  | NaN, _ | _, NaN => NaN
  | PosInf, NegInf | NegInf, PosInf => NaN
  | PosInf, _ | _, PosInf => PosInf
  | NegInf, _ | _, NegInf => NegInf
  | Fin a, Fin b => Fin (Qred (a + b))
  end.

(** [- x] *)
Definition neg (x : number) : number :=
  match x with
  | NaN => NaN
  | PosInf => NegInf
  | NegInf => PosInf
  | Fin a => Fin (Qred (- a))
  end.

(** [x - y] *)
Definition sub (x y : number) : number := add x (neg y).

(** [x < y] *)
Definition lt (x y : number) : bool :=
  match x, y with
  | NaN, _ | _, NaN => false
  | _, NegInf => false
  | NegInf, _ => true
  | PosInf, _ => false
  | Fin _, PosInf => true
  | Fin a, Fin b => Qltb a b
  end.

(** [x >= y]: the comparison [x < y] undefined or true gives [false]. *)
Definition ge (x y : number) : bool :=
  match x, y with
  | NaN, _ | _, NaN => false
  | _, _ => negb (lt x y)
  end.

(** [x === y] on numbers. *)
Definition strictEq (x y : number) : bool :=
  match x, y with
  | PosInf, PosInf | NegInf, NegInf => true
  | Fin a, Fin b => Qeq_bool a b
  | _, _ => false
  end.

(** The array index a number designates as a property key, if any: a
    non-negative integer. *)
Definition arrayIndex (x : number) : option nat :=
  match x with
  | Fin q =>
      if ((Qnum q mod QDen q =? 0) && (0 <=? Qnum q))%Z
      then Some (Z.to_nat (Qnum q / QDen q))
      else None
  | _ => None
  end.

(** *** [Number(string)]: the StringNumericLiteral grammar *)

Definition code (c : ascii) : nat := nat_of_ascii c.

(** White space and line terminators among the code units below 256. *)
Definition isStrWhiteSpaceChar (c : ascii) : bool :=
  let n := code c in
  ((n =? 9) || (n =? 10) || (n =? 11) || (n =? 12) || (n =? 13)
   || (n =? 32) || (n =? 160))%nat.

Fixpoint dropWhile {A} (p : A -> bool) (l : list A) : list A :=
  match l with
  | [] => []
  | x :: r => if p x then dropWhile p r else l
  end.

Definition trim (l : list ascii) : list ascii :=
  rev (dropWhile isStrWhiteSpaceChar (rev (dropWhile isStrWhiteSpaceChar l))).

(** The value of a digit in the given radix. *)
Definition digitValue (radix : nat) (c : ascii) : option Z :=
  let n := code c in
  let v :=
    if ((48 <=? n) && (n <=? 57))%nat then Some (n - 48)%nat
    else if ((97 <=? n) && (n <=? 102))%nat then Some (n - 87)%nat
    else if ((65 <=? n) && (n <=? 70))%nat then Some (n - 55)%nat
    else None in
  match v with
  | Some d => if (d <? radix)%nat then Some (Z.of_nat d) else None
  | None => None
  end.

(** Reads the longest prefix of digits: the value read so far, the number
    of digits read, and the rest. *)
Fixpoint readDigits (radix : nat) (acc : Z) (count : nat) (l : list ascii)
  : Z * nat * list ascii :=
  match l with
  | [] => (acc, count, [])
  | c :: r =>
      match digitValue radix c with
      | Some d => readDigits radix (acc * Z.of_nat radix + d) (S count) r
      | None => (acc, count, l)
      end
  end.

(** A whole string of digits, at least one. *)
Definition allDigits (radix : nat) (l : list ascii) : option Z :=
  match readDigits radix 0 0 l with
  | (v, S _, []) => Some v
  | _ => None
  end.

Definition isChar (a b : ascii) : bool := (code a =? code b)%nat.

(** An optional sign: [true] for [-]. *)
Definition readSign (l : list ascii) : bool * list ascii :=
  match l with
  | c :: r =>
      if isChar c "-" then (true, r)
      else if isChar c "+" then (false, r)
      else (false, l)
  | [] => (false, [])
  end.

(** ExponentPart, when present; [None] when the rest is not one. *)
Definition readExponent (l : list ascii) : option Z :=
  match l with
  | [] => Some 0
  | c :: r =>
      if isChar c "e" || isChar c "E" then
        let '(negative, r') := readSign r in
        match allDigits 10 r' with
        | Some e => Some (if negative then - e else e)
        | None => None
        end
      else None
  end.

(** [mantissa * 10 ^ exponent] *)
Definition scale (mantissa exponent : Z) : Q :=
  if 0 <=? exponent
  then inject_Z (mantissa * 10 ^ exponent)
  else Qred (Qmake mantissa (Z.to_pos (10 ^ (- exponent)))).

(** StrUnsignedDecimalLiteral other than [Infinity]. *)
Definition unsignedDecimal (l : list ascii) : option Q :=
  let '(ip, ni, r1) := readDigits 10 0 0 l in
  let '(m, nf, r2) :=
    match r1 with
    | c :: r =>
        if isChar c "." then
          let '(m, nf, r2) := readDigits 10 ip 0 r in (m, nf, r2)
        else (ip, 0%nat, r1)
    | [] => (ip, 0%nat, r1)
    end in
  match (ni + nf)%nat with
  | O => None
  | S _ =>
      match readExponent r2 with
      | Some e => Some (scale m (e - Z.of_nat nf))
      | None => None
      end
  end.

Definition strDecimalLiteral (l : list ascii) : number :=
  let '(negative, r) := readSign l in
  if list_eq_dec ascii_dec r (list_ascii_of_string "Infinity")
  then (if negative then NegInf else PosInf)
  else
    match unsignedDecimal r with
    | Some q => Fin (if negative then Qred (- q) else q)
    | None => NaN
    end.

(** NonDecimalIntegerLiteral: [0x], [0o] and [0b], unsigned. *)
Definition nonDecimal (l : list ascii) : option Z :=
  match l with
  | z :: p :: r =>
      if isChar z "0" then
        if isChar p "x" || isChar p "X" then allDigits 16 r
        else if isChar p "o" || isChar p "O" then allDigits 8 r
        else if isChar p "b" || isChar p "B" then allDigits 2 r
        else None
      else None
  | _ => None
  end.

Definition StringToNumber (s : string) : number :=
  match trim (list_ascii_of_string s) with
  | [] => Fin 0
  | l =>
      match nonDecimal l with
      | Some v => ofZ v
      | None => strDecimalLiteral l
      end
  end.

(** [Number(v)] for [v] a string or [null]: [Number(null)] is [+0]. *)
Definition Number (v : option string) : number :=
  match v with
  | None => Fin 0
  | Some s => StringToNumber s
  end.

End JS.

Local Open Scope string_scope.

(** ** Data model *)

Record Coords : Type := { lat : Q; lng : Q }.

Record CameraOptions : Type := { pitch : Q; heading : Q }.

(** The fields [updateChapterContent] reads from its [chapterData]
    argument; an absent field is the empty text. *)
Record Details : Type := {
  title : string;
  content : string;
  date : string;
  place : string;
  imageUrl : string;
  imageCredit : string
}.

(** A chapter.  [id] is the chapter's identity as the text the parameter
    store keeps for it. *)
Record Chapter : Type := {
  id : string;
  chapterDetails : Details;
  coords : Coords;
  cameraOptions : CameraOptions
}.

(** [story.properties] *)
Record Properties : Type := {
  propertiesDetails : Details;
  description : string;
  createdBy : string;
  propertiesCoords : Coords;
  propertiesCameraOptions : CameraOptions
}.

Record Story : Type := {
  properties : Properties;
  chapters : list Chapter
}.

(** The two markups [loadSvg] resolves for the autoplay button. *)
Inductive Icon : Type := PLAY_ICON | PAUSE_ICON.

Inductive NavName : Type := intro | details.

Definition navEq (a b : NavName) : bool :=
  match a, b with
  | intro, intro | details, details => true
  | _, _ => false
  end.

(** A live repeating timer of the host; the only callback this module
    registers is [setNextAutoplayStep]. *)
Record Timer : Type := { handle : positive; period : Z }.

(** The argument of [performFlyTo]; [flyPitch] is the pitch in degrees
    that the code hands to [Cesium.Math.toRadians]. *)
Record FlyTo : Type := {
  flyCoords : Coords;
  flyDuration : Z;
  flyRoll : Q;
  flyPitch : Q;
  flyHeading : Q
}.

(** The text surfaces of the chapter detail section. *)
Record Content : Type := {
  storyTitleText : string;
  h2Text : string;
  descriptionText : string;
  dateText : string;
  placeText : string;
  heroSrc : string;
  storyIntroAttributionText : string;
  attributionText : string;
  storyIntroAuthorText : string;
  storyIntroDateText : string
}.

(** Everything the module reads and writes. *)
Record State : Type := {
  (** the persisted [chapterId] parameter *)
  chapterIdParam : option string;
  (** the module variable [intervalId] *)
  intervalId : option positive;
  (** the host's live timers and its next fresh handle *)
  timers : list Timer;
  nextHandle : positive;
  (** [autoplayButton.innerHTML] *)
  autoplayIcon : Icon;
  (** [forwardButton.disabled] *)
  forwardDisabled : bool;
  (** the two values interpolated into [#chapter-index] *)
  chapterIndexDisplay : JS.number * nat;
  (** the [active] class of the two navigation panes *)
  introActive : bool;
  detailActive : bool;
  detailContent : Content;
  (** the collaborators: selected marker, radius shader, camera *)
  selectedMarker : option nat;
  radiusShader : option (Coords * Z);
  camera : option FlyTo
}.

Definition TIME_PER_CHAPTER : Z := 3000.
Definition HIGHLIGHT_RADIUS : Z := 250.

(** The state before [initChapterNavigation]: what the page load found in
    the URL, no timer, nothing rendered. *)
Definition pageLoad (param : option string) : State :=
  {| chapterIdParam := param;
     intervalId := None;
     timers := [];
     nextHandle := 1%positive;
     autoplayIcon := PLAY_ICON;
     forwardDisabled := false;
     chapterIndexDisplay := (JS.Fin 0, O);
     introActive := false;
     detailActive := false;
     detailContent := {| storyTitleText := ""; h2Text := ""; descriptionText := "";
                   dateText := ""; placeText := ""; heroSrc := "";
                   storyIntroAttributionText := ""; attributionText := "";
                   storyIntroAuthorText := ""; storyIntroDateText := "" |};
     selectedMarker := None;
     radiusShader := None;
     camera := None |}.

(** *** Field updates *)

Definition setChapterIdParam (v : option string) (s : State) : State :=
  {| chapterIdParam := v; intervalId := intervalId s; timers := timers s;
     nextHandle := nextHandle s; autoplayIcon := autoplayIcon s;
     forwardDisabled := forwardDisabled s;
     chapterIndexDisplay := chapterIndexDisplay s;
     introActive := introActive s; detailActive := detailActive s;
     detailContent := detailContent s; selectedMarker := selectedMarker s;
     radiusShader := radiusShader s; camera := camera s |}.

Definition setIntervalId (v : option positive) (s : State) : State :=
  {| chapterIdParam := chapterIdParam s; intervalId := v; timers := timers s;
     nextHandle := nextHandle s; autoplayIcon := autoplayIcon s;
     forwardDisabled := forwardDisabled s;
     chapterIndexDisplay := chapterIndexDisplay s;
     introActive := introActive s; detailActive := detailActive s;
     detailContent := detailContent s; selectedMarker := selectedMarker s;
     radiusShader := radiusShader s; camera := camera s |}.

Definition setTimers (v : list Timer) (n : positive) (s : State) : State :=
  {| chapterIdParam := chapterIdParam s; intervalId := intervalId s;
     timers := v; nextHandle := n; autoplayIcon := autoplayIcon s;
     forwardDisabled := forwardDisabled s;
     chapterIndexDisplay := chapterIndexDisplay s;
     introActive := introActive s; detailActive := detailActive s;
     detailContent := detailContent s; selectedMarker := selectedMarker s;
     radiusShader := radiusShader s; camera := camera s |}.

Definition setAutoplayIcon (v : Icon) (s : State) : State :=
  {| chapterIdParam := chapterIdParam s; intervalId := intervalId s;
     timers := timers s; nextHandle := nextHandle s; autoplayIcon := v;
     forwardDisabled := forwardDisabled s;
     chapterIndexDisplay := chapterIndexDisplay s;
     introActive := introActive s; detailActive := detailActive s;
     detailContent := detailContent s; selectedMarker := selectedMarker s;
     radiusShader := radiusShader s; camera := camera s |}.

Definition setForwardDisabled (v : bool) (s : State) : State :=
  {| chapterIdParam := chapterIdParam s; intervalId := intervalId s;
     timers := timers s; nextHandle := nextHandle s;
     autoplayIcon := autoplayIcon s; forwardDisabled := v;
     chapterIndexDisplay := chapterIndexDisplay s;
     introActive := introActive s; detailActive := detailActive s;
     detailContent := detailContent s; selectedMarker := selectedMarker s;
     radiusShader := radiusShader s; camera := camera s |}.

Definition setChapterIndexDisplay (v : JS.number * nat) (s : State) : State :=
  {| chapterIdParam := chapterIdParam s; intervalId := intervalId s;
     timers := timers s; nextHandle := nextHandle s;
     autoplayIcon := autoplayIcon s; forwardDisabled := forwardDisabled s;
     chapterIndexDisplay := v;
     introActive := introActive s; detailActive := detailActive s;
     detailContent := detailContent s; selectedMarker := selectedMarker s;
     radiusShader := radiusShader s; camera := camera s |}.

Definition setActive (i d : bool) (s : State) : State :=
  {| chapterIdParam := chapterIdParam s; intervalId := intervalId s;
     timers := timers s; nextHandle := nextHandle s;
     autoplayIcon := autoplayIcon s; forwardDisabled := forwardDisabled s;
     chapterIndexDisplay := chapterIndexDisplay s;
     introActive := i; detailActive := d;
     detailContent := detailContent s; selectedMarker := selectedMarker s;
     radiusShader := radiusShader s; camera := camera s |}.

Definition setContent (v : Content) (s : State) : State :=
  {| chapterIdParam := chapterIdParam s; intervalId := intervalId s;
     timers := timers s; nextHandle := nextHandle s;
     autoplayIcon := autoplayIcon s; forwardDisabled := forwardDisabled s;
     chapterIndexDisplay := chapterIndexDisplay s;
     introActive := introActive s; detailActive := detailActive s;
     detailContent := v; selectedMarker := selectedMarker s;
     radiusShader := radiusShader s; camera := camera s |}.

Definition setMarker (v : option nat) (s : State) : State :=
  {| chapterIdParam := chapterIdParam s; intervalId := intervalId s;
     timers := timers s; nextHandle := nextHandle s;
     autoplayIcon := autoplayIcon s; forwardDisabled := forwardDisabled s;
     chapterIndexDisplay := chapterIndexDisplay s;
     introActive := introActive s; detailActive := detailActive s;
     detailContent := detailContent s; selectedMarker := v;
     radiusShader := radiusShader s; camera := camera s |}.

Definition setRadiusShader (v : option (Coords * Z)) (s : State) : State :=
  {| chapterIdParam := chapterIdParam s; intervalId := intervalId s;
     timers := timers s; nextHandle := nextHandle s;
     autoplayIcon := autoplayIcon s; forwardDisabled := forwardDisabled s;
     chapterIndexDisplay := chapterIndexDisplay s;
     introActive := introActive s; detailActive := detailActive s;
     detailContent := detailContent s; selectedMarker := selectedMarker s;
     radiusShader := v; camera := camera s |}.

Definition setCamera (v : option FlyTo) (s : State) : State :=
  {| chapterIdParam := chapterIdParam s; intervalId := intervalId s;
     timers := timers s; nextHandle := nextHandle s;
     autoplayIcon := autoplayIcon s; forwardDisabled := forwardDisabled s;
     chapterIndexDisplay := chapterIndexDisplay s;
     introActive := introActive s; detailActive := detailActive s;
     detailContent := detailContent s; selectedMarker := selectedMarker s;
     radiusShader := radiusShader s; camera := v |}.

(** ** Completions

    Every function of the module returns nothing and changes the state; a
    call either completes or throws, and a throw keeps the state reached
    when it happened. *)
Inductive completion : Type :=
| Normal (s : State)
| Throw (s : State).

Definition cmd : Type := State -> completion.

Definition andThen (c1 c2 : cmd) : cmd :=
  fun s => match c1 s with
           | Normal s' => c2 s'
           | Throw s' => Throw s'
           end.

Definition does (f : State -> State) : cmd := fun s => Normal (f s).

Declare Scope cmd_scope.
Delimit Scope cmd_scope with cmd.
Notation "c1 ;; c2" := (andThen c1 c2)
  (at level 61, right associativity) : cmd_scope.

(** The state a call leaves behind, however it completed. *)
Definition outcome (c : completion) : State :=
  match c with
  | Normal s => s
  | Throw s => s
  end.

Definition completes (c : completion) : bool :=
  match c with
  | Normal _ => true
  | Throw _ => false
  end.

(** ** The navigation module *)
Section Navigation.

Variable story : Story.

Local Open Scope cmd_scope.

(** [story.chapters.length] *)
Definition chapterCount : nat := List.length (chapters story).

(** [story.chapters[x]] with the position it was found at; [None] is
    [undefined]. *)
Definition chapterAt (x : JS.number) : option (nat * Chapter) :=
  match JS.arrayIndex x with
  | Some i =>
      match nth_error (chapters story) i with
      | Some c => Some (i, c)
      | None => None
      end
  | None => None
  end.

(** *** Collaborators *)

(** Modelled from the spec: [getParams] of [utils/params.js], read at the
    key [chapterId]; the parameter store keeps one named string, and an
    absent parameter reads as [null]. *)
Definition getParams (s : State) : option string := chapterIdParam s.

(** Modelled from the spec: [setParams] of [utils/params.js] at the key
    [chapterId]; it persists a chapter identity or, given [null], clears
    the parameter. *)
Definition setParams (value : option string) : cmd :=
  does (setChapterIdParam value).

(** Modelled from the spec: [setSelectedMarker] of
    [utils/create-markers.js]; marks one marker selected, or none. *)
Definition setSelectedMarker (index : option nat) : cmd :=
  does (setMarker index).

(** Modelled from the spec: [createCustomRadiusShader] of
    [utils/cesium.js]; highlights a location with a radius. *)
Definition createCustomRadiusShader (c : Coords) (radius : Z) : cmd :=
  does (setRadiusShader (Some (c, radius))).

(** Modelled from the spec: [removeCustomRadiusShader] of
    [utils/cesium.js]; clears the highlight. *)
Definition removeCustomRadiusShader : cmd :=
  does (setRadiusShader None).

(** Modelled from the spec: [performFlyTo] of [utils/cesium.js]; a
    fire-and-forget camera command. *)
Definition performFlyTo (f : FlyTo) : cmd :=
  does (setCamera (Some f)).

(** The host's [setInterval]: registers a repeating timer under a fresh
    handle, an integer greater than zero, and returns the handle. *)
Definition setInterval (delay : Z) (s : State) : positive * State :=
  let h := nextHandle s in
  (h, setTimers ({| handle := h; period := delay |} :: timers s)
                (Pos.succ h) s).

(** The host's [clearTimeout]: timeouts and intervals share one pool of
    handles; [null] and unknown handles are ignored. *)
Definition clearTimeout (h : option positive) : cmd :=
  does (fun s =>
    match h with
    | Some n =>
        setTimers (filter (fun t => negb (Pos.eqb (handle t) n)) (timers s))
                  (nextHandle s) s
    | None => s
    end).

(** *** The functions of the module *)

(** [activateNavigationElement(navName)] *)
Definition activateNavigationElement (navName : NavName) : cmd :=
  does (setActive (navEq navName intro) (navEq navName details)).

(** [getCurrentChapterIndex()] *)
Definition getCurrentChapterIndex (s : State) : JS.number :=
  let params := getParams s in
  JS.Number params.

(** [updateDetailsNavigation()] *)
Definition updateDetailsNavigation : cmd := fun s =>
  let chapterIndex := JS.add (getCurrentChapterIndex s) (JS.ofZ 1) in
  let s1 := setChapterIndexDisplay (chapterIndex, chapterCount) s in
  if JS.strictEq chapterIndex (JS.ofNat chapterCount)
  then Normal (setForwardDisabled true s1)
  else Normal (setForwardDisabled false s1).

(** [updateChapterIndexAndNavigation()] *)
Definition updateChapterIndexAndNavigation : cmd := fun s =>
  let chapterIndex := getCurrentChapterIndex s in
  let chapterIndexDisplay := (JS.add chapterIndex (JS.ofZ 1), chapterCount) in
  let s1 := setChapterIndexDisplay chapterIndexDisplay s in
  Normal (setForwardDisabled
            (JS.strictEq (JS.add chapterIndex (JS.ofZ 1))
                         (JS.ofNat chapterCount)) s1).

(** The text surfaces [updateChapterContent] fills in. *)
Definition renderedContent (chapterData : Details) (isIntro : bool)
  : Content :=
  let p := properties story in
  let credit :=
    if String.eqb (imageCredit chapterData) "" then ""
    else String.append "Image credit: " (imageCredit chapterData) in
  {| storyTitleText := if isIntro then "" else title chapterData;
     h2Text := if isIntro then title (propertiesDetails p)
               else title chapterData;
     descriptionText := if isIntro then description p
                        else content chapterData;
     dateText := if isIntro then "" else date chapterData;
     placeText := place chapterData;
     heroSrc := imageUrl chapterData;
     storyIntroAttributionText := if isIntro then credit else "";
     attributionText := if isIntro then "" else credit;
     storyIntroAuthorText := if isIntro then String.append "by: " (createdBy p)
                             else "";
     storyIntroDateText := if isIntro then date (propertiesDetails p)
                           else "" |}.

(** [updateChapterContent(chapterData, isIntro)] *)
Definition updateChapterContent (chapterData : Details) (isIntro : bool)
  : cmd :=
  updateDetailsNavigation ;;
  does (setContent (renderedContent chapterData isIntro)) ;;
  updateChapterIndexAndNavigation.

(** [resetToIntro()] *)
Definition resetToIntro : cmd :=
  let p := properties story in
  setParams None ;;
  setSelectedMarker None ;;
  updateChapterContent (propertiesDetails p) true ;;
  activateNavigationElement intro ;;
  removeCustomRadiusShader ;;
  performFlyTo {| flyCoords := propertiesCoords p;
                  flyDuration := 1;
                  flyRoll := 0;
                  flyPitch := pitch (propertiesCameraOptions p);
                  flyHeading := heading (propertiesCameraOptions p) |}.

(** [updateChapter(chapterIndex)]: destructuring [undefined] throws a
    TypeError before anything is written. *)
Definition updateChapter (chapterIndex : JS.number) : cmd := fun s =>
  match chapterAt chapterIndex with
  | None => Throw s
  | Some (i, c) =>
      (setSelectedMarker (Some i) ;;
       setParams (Some (id c)) ;;
       updateChapterContent (chapterDetails c) false ;;
       activateNavigationElement details ;;
       createCustomRadiusShader (coords c) HIGHLIGHT_RADIUS ;;
       performFlyTo {| flyCoords := coords c;
                       flyDuration := 2;
                       flyRoll := 0;
                       flyPitch := pitch (cameraOptions c);
                       flyHeading := heading (cameraOptions c) |}) s
  end.

(** [setPreviousChapter()] *)
Definition setPreviousChapter : cmd := fun s =>
  let newChapterIndex := JS.sub (getCurrentChapterIndex s) (JS.ofZ 1) in
  if JS.ge newChapterIndex (JS.ofZ 0)
  then updateChapter newChapterIndex s
  else resetToIntro s.

(** [setNextChapter()] *)
Definition setNextChapter : cmd := fun s =>
  let newChapterIndex := JS.add (getCurrentChapterIndex s) (JS.ofZ 1) in
  if JS.lt newChapterIndex (JS.ofNat chapterCount)
  then updateChapter newChapterIndex s
  else Normal s.

(** [stopAutoplay()] *)
Definition stopAutoplay : cmd := fun s =>
  (does (setAutoplayIcon PLAY_ICON) ;;
   clearTimeout (intervalId s) ;;
   does (setIntervalId None)) s.

(** [setNextAutoplayStep()] *)
Definition setNextAutoplayStep : cmd :=
  setNextChapter ;;
  (fun s =>
     if JS.strictEq (getCurrentChapterIndex s)
                    (JS.sub (JS.ofNat chapterCount) (JS.ofZ 1))
     then stopAutoplay s
     else Normal s).

(** [autoplayClickHandler()]: a handle is never zero, so [if (intervalId)]
    asks whether it is set. *)
Definition autoplayClickHandler : cmd := fun s =>
  match intervalId s with
  | Some _ => stopAutoplay s
  | None =>
      let '(h, s1) := setInterval TIME_PER_CHAPTER s in
      Normal (setAutoplayIcon PAUSE_ICON (setIntervalId (Some h) s1))
  end.

(** The click listeners [initChapterNavigation] registers. *)
Definition startButtonClick : cmd :=
  activateNavigationElement details ;; updateChapter (JS.ofZ 0).

Definition forwardButtonClick : cmd :=
  setNextChapter ;; stopAutoplay.

Definition backButtonClick : cmd :=
  setPreviousChapter ;; stopAutoplay.

Definition autoplayButtonClick : cmd := autoplayClickHandler.

(** [initChapterNavigation()], the listeners apart. *)
Definition initChapterNavigation : cmd := fun s =>
  let chapterParam := getParams s in
  let chapterData :=
    match chapterParam with
    | Some p => find (fun chapter => String.eqb (id chapter) p)
                     (chapters story)
    | None => None
    end in
  match chapterData with
  | Some c =>
      (activateNavigationElement details ;;
       updateChapterContent (chapterDetails c) false) s
  | None =>
      (activateNavigationElement intro ;;
       updateChapterContent (propertiesDetails (properties story)) true) s
  end.

(** *** The host's timer *)

Definition isLive (h : positive) (s : State) : bool :=
  existsb (fun t => Pos.eqb (handle t) h) (timers s).

(** One firing of the timer [h]: a timer that was cleared fires no more;
    a callback that throws leaves the timer registered. *)
Definition tick (h : positive) (s : State) : State :=
  if isLive h s then outcome (setNextAutoplayStep s) else s.

Fixpoint ticks (h : positive) (n : nat) (s : State) : State :=
  match n with
  | O => s
  | S k => ticks h k (tick h s)
  end.

(** *** Derived notions *)

(** A number that is the position of a chapter. *)
Definition validIndex (x : JS.number) : bool :=
  match chapterAt x with
  | Some _ => true
  | None => false
  end.

(** The parameter value matches some chapter's id. *)
Definition matchesChapter (v : string) : bool :=
  existsb (fun chapter => String.eqb (id chapter) v) (chapters story).

(** The chapter ids are the chapter positions: the id of the chapter at
    position [i] converts to the number [i]. *)
Definition idsArePositions : Prop :=
  forall i c, nth_error (chapters story) i = Some c ->
              JS.Number (Some (id c)) = JS.ofNat i.

(** The autoplay slot: the module's handle and the host's timers agree,
    so at most one timer of the module is live. *)
Definition singleSlot (s : State) : Prop :=
  match intervalId s with
  | Some h => timers s = [{| handle := h; period := TIME_PER_CHAPTER |}]
  | None => timers s = []
  end.

End Navigation.

Arguments chapterCount story : simpl never.

(** ** Sample stories *)

Definition overview : Properties :=
  {| propertiesDetails :=
       {| title := "Memphis"; content := ""; date := "1954"; place := "";
          imageUrl := "intro.jpg"; imageCredit := "Archive" |};
     description := "A walk through the city";
     createdBy := "Editor";
     propertiesCoords := {| lat := 35; lng := -90 |};
     propertiesCameraOptions := {| pitch := -30; heading := 0 |} |}.

Definition sampleChapter (ident name : string) (position : Z) : Chapter :=
  {| id := ident;
     chapterDetails :=
       {| title := name; content := "Text"; date := "1956";
          place := "Tennessee"; imageUrl := "hero.jpg"; imageCredit := "" |};
     coords := {| lat := 35; lng := inject_Z position |};
     cameraOptions := {| pitch := -45; heading := 90 |} |}.

(** Three chapters A, B, C whose ids are their positions. *)
Definition storyABC : Story :=
  {| properties := overview;
     chapters := [sampleChapter "0" "A" 0; sampleChapter "1" "B" 1;
                  sampleChapter "2" "C" 2] |}.

(** Two chapters whose ids are names. *)
Definition storyNamed : Story :=
  {| properties := overview;
     chapters := [sampleChapter "graceland" "A" 0;
                  sampleChapter "beale-street" "B" 1] |}.

(** Three chapters whose ids count from one. *)
Definition storyOneBased : Story :=
  {| properties := overview;
     chapters := [sampleChapter "1" "A" 0; sampleChapter "2" "B" 1;
                  sampleChapter "3" "C" 2] |}.

(** Two chapters whose ids count down from zero. *)
Definition storyCountdown : Story :=
  {| properties := overview;
     chapters := [sampleChapter "0" "A" 0; sampleChapter "-1" "B" 1] |}.

(** The page as loaded with the given parameter, initialised. *)
Definition loaded (story : Story) (param : option string) : State :=
  outcome (initChapterNavigation story (pageLoad param)).

(** Runs a list of commands one after the other, a throwing one leaving
    its state behind as an uncaught error in a listener does. *)
Fixpoint after (cs : list cmd) (s : State) : State :=
  match cs with
  | [] => s
  | c :: r => after r (outcome (c s))
  end.

(** The events of the page once initialised. *)
Inductive Event : Type :=
| StartClick
| ForwardClick
| BackClick
| AutoplayClick
| TimerFires (h : positive).

Definition handle_event (story : Story) (e : Event) (s : State) : State :=
  match e with
  | StartClick => outcome (startButtonClick story s)
  | ForwardClick => outcome (forwardButtonClick story s)
  | BackClick => outcome (backButtonClick story s)
  | AutoplayClick => outcome (autoplayButtonClick s)
  | TimerFires h => tick story h s
  end.

Fixpoint run (story : Story) (es : list Event) (s : State) : State :=
  match es with
  | [] => s
  | e :: r => run story r (handle_event story e s)
  end.

(** The intro state: no parameter, the intro pane active, no marker and
    no highlight. *)
Definition introState (s : State) : Prop :=
  chapterIdParam s = None /\ introActive s = true /\ detailActive s = false
  /\ selectedMarker s = None /\ radiusShader s = None.

(** The last chapter position, as the code writes it:
    [story.chapters.length - 1]. *)
Definition lastIndex (story : Story) : JS.number :=
  JS.sub (JS.ofNat (chapterCount story)) (JS.ofZ 1).

(** ** States of the sample stories *)

(** The start button clicked on the freshly loaded page. *)
Definition atChapterA : State :=
  after [startButtonClick storyABC] (loaded storyABC None).

(** A walk to the last chapter of the three-chapter story. *)
Definition atChapterC : State :=
  after [startButtonClick storyABC; setNextChapter storyABC;
         setNextChapter storyABC] (loaded storyABC None).

(** Autoplay running at chapter B of the three-chapter story. *)
Definition playingAtB : State :=
  run storyABC [StartClick; ForwardClick; AutoplayClick]
      (loaded storyABC None).

(** Autoplay started on a page loaded with a parameter beyond the store. *)
Definition playingBeyond : State :=
  run storyABC [AutoplayClick] (loaded storyABC (Some "7")).

(** Autoplay started at the first chapter of the one-based story, and
    fired once. *)
Definition firedOneBased : State :=
  run storyOneBased [StartClick; AutoplayClick; TimerFires 1]
      (loaded storyOneBased None).

(** Autoplay started at the first chapter of the countdown story. *)
Definition playingCountdown : State :=
  run storyCountdown [StartClick; AutoplayClick] (loaded storyCountdown None).

(** ** Notions the properties are stated with *)

(** The autoplay slot is untouched. *)
Definition sameTimer (s s' : State) : Prop :=
  intervalId s' = intervalId s /\ timers s' = timers s
  /\ nextHandle s' = nextHandle s /\ autoplayIcon s' = autoplayIcon s.

(** What a click leaves of the autoplay slot when it stopped the timer. *)
Definition autoplayStopped (story : Story) (s s' : State) : Prop :=
  intervalId s' = None
  /\ autoplayIcon s' = PLAY_ICON
  /\ (forall h, intervalId s = Some h -> isLive h s' = false)
  /\ (singleSlot s ->
        timers s' = [] /\ forall h n, ticks story h n s' = s').

(** "[updateChapter(i)] followed by reading the current index returns
    [i]". *)
Definition readsBackAfterGoTo (story : Story) (i : nat) (s : State) : Prop :=
  exists s', updateChapter story (JS.ofNat i) s = Normal s'
             /\ getCurrentChapterIndex s' = JS.ofNat i.

(** "[setPreviousChapter()] at index 0 results in intro state with the
    current index resolving to none", none being a number that is no
    chapter position. *)
Definition retreatAtFirstResolvesToNone (story : Story) (s : State) : Prop :=
  JS.strictEq (getCurrentChapterIndex s) (JS.ofZ 0) = true ->
  exists s', setPreviousChapter story s = Normal s'
             /\ introState s'
             /\ validIndex story (getCurrentChapterIndex s') = false.

(** The forward control fits the index the state reads: disabled at
    [chapterCount - 1], enabled at every other chapter position. *)
Definition forwardControlFits (story : Story) (s : State) : Prop :=
  (JS.strictEq (getCurrentChapterIndex s) (lastIndex story) = true ->
     forwardDisabled s = true)
  /\ (validIndex story (getCurrentChapterIndex s) = true ->
        JS.strictEq (getCurrentChapterIndex s) (lastIndex story) = false ->
        forwardDisabled s = false).

(** "After the click the timer handle is null." *)
Definition handleNullAfter (click : cmd) (s : State) : Prop :=
  intervalId (outcome (click s)) = None.

(** ** The states the navigation functions leave *)

(** The state [updateChapterContent(chapterData, isIntro)] leaves: the
    text surfaces, the index readout and the forward control. *)
Definition rendered (story : Story) (chapterData : Details) (isIntro : bool)
  (s : State) : State :=
  setForwardDisabled
    (JS.strictEq (JS.add (getCurrentChapterIndex s) (JS.ofZ 1))
                 (JS.ofNat (chapterCount story)))
    (setChapterIndexDisplay
       (JS.add (getCurrentChapterIndex s) (JS.ofZ 1), chapterCount story)
       (setContent (renderedContent story chapterData isIntro) s)).

(** The state a completed [updateChapter] leaves for the chapter [c] found
    at position [i]. *)
Definition chapterView (story : Story) (i : nat) (c : Chapter) (s : State)
  : State :=
  setCamera
    (Some {| flyCoords := coords c; flyDuration := 2; flyRoll := 0;
             flyPitch := pitch (cameraOptions c);
             flyHeading := heading (cameraOptions c) |})
    (setRadiusShader (Some (coords c, HIGHLIGHT_RADIUS))
       (setActive false true
          (rendered story (chapterDetails c) false
             (setChapterIdParam (Some (id c)) (setMarker (Some i) s))))).

(** The state [resetToIntro] leaves. *)
Definition introView (story : Story) (s : State) : State :=
  let p := properties story in
  setCamera
    (Some {| flyCoords := propertiesCoords p; flyDuration := 1; flyRoll := 0;
             flyPitch := pitch (propertiesCameraOptions p);
             flyHeading := heading (propertiesCameraOptions p) |})
    (setRadiusShader None
       (setActive true false
          (rendered story (propertiesDetails p) true
             (setMarker None (setChapterIdParam None s))))).

(** ** Invariants of the page *)

(** Exactly one of the two navigation panes is active. *)
Definition panesExclusive (s : State) : Prop :=
  introActive s = negb (detailActive s).

(** The index readout and the forward control are the ones the persisted
    parameter gives. *)
Definition readoutFits (story : Story) (s : State) : Prop :=
  chapterIndexDisplay s
  = (JS.add (getCurrentChapterIndex s) (JS.ofZ 1), chapterCount story)
  /\ forwardDisabled s
     = JS.strictEq (JS.add (getCurrentChapterIndex s) (JS.ofZ 1))
                   (JS.ofNat (chapterCount story)).

(** The pane and the text agree with the parameter: the details pane shows
    the chapter whose id is persisted, the intro pane the story's own
    text. *)
Definition viewFits (story : Story) (s : State) : Prop :=
  (detailActive s = true ->
     exists c, In c (chapters story)
               /\ chapterIdParam s = Some (id c)
               /\ detailContent s
                  = renderedContent story (chapterDetails c) false)
  /\ (introActive s = true ->
        detailContent s
        = renderedContent story
            (propertiesDetails (properties story)) true).

(** The marker, the highlight and the camera belong to the chapter whose
    id is persisted; without a marker there is no highlight. *)
Definition collaboratorsFit (story : Story) (s : State) : Prop :=
  match selectedMarker s with
  | Some i =>
      exists c, nth_error (chapters story) i = Some c
                /\ chapterIdParam s = Some (id c)
                /\ radiusShader s = Some (coords c, HIGHLIGHT_RADIUS)
                /\ camera s
                   = Some {| flyCoords := coords c; flyDuration := 2;
                             flyRoll := 0;
                             flyPitch := pitch (cameraOptions c);
                             flyHeading := heading (cameraOptions c) |}
  | None => radiusShader s = None
  end.

(** The autoplay button shows the pause icon exactly while a handle is
    held. *)
Definition iconFits (s : State) : Prop :=
  match intervalId s with
  | Some _ => autoplayIcon s = PAUSE_ICON
  | None => autoplayIcon s = PLAY_ICON
  end.

(** The parameter is absent or is the id of a chapter of the store. *)
Definition parameterKnown (story : Story) (s : State) : Prop :=
  chapterIdParam s = None
  \/ exists i c, nth_error (chapters story) i = Some c
                 /\ chapterIdParam s = Some (id c).

(** Whether the listener of an event runs to its end. *)
Definition eventCompletes (story : Story) (e : Event) (s : State) : bool :=
  match e with
  | StartClick => completes (startButtonClick story s)
  | ForwardClick => completes (forwardButtonClick story s)
  | BackClick => completes (backButtonClick story s)
  | AutoplayClick => completes (autoplayButtonClick s)
  | TimerFires h =>
      if isLive h s then completes (setNextAutoplayStep story s) else true
  end.

(** Whether every listener of a run of events runs to its end. *)
Fixpoint allComplete (story : Story) (es : list Event) (s : State) : bool :=
  match es with
  | [] => true
  | e :: r => eventCompletes story e s
              && allComplete story r (handle_event story e s)
  end.

(** Everything but the autoplay slot is untouched. *)
Definition sameView (s s' : State) : Prop :=
  chapterIdParam s' = chapterIdParam s
  /\ forwardDisabled s' = forwardDisabled s
  /\ chapterIndexDisplay s' = chapterIndexDisplay s
  /\ introActive s' = introActive s /\ detailActive s' = detailActive s
  /\ detailContent s' = detailContent s
  /\ selectedMarker s' = selectedMarker s
  /\ radiusShader s' = radiusShader s
  /\ camera s' = camera s.

(** ** The title-keyed navigation module

    The earlier module of the repository, which keeps the current chapter
    under the parameter [chapter] as the chapter's title and finds the
    index by searching the titles.  Its synchronous functions are
    embedded; its autoplay functions, which wait for an icon to load
    before they touch the timer, are not.  The chapter records are taken
    with every field present. *)
Module Legacy.

(** The text surfaces the module writes. *)
Record Content : Type := {
  storyTitleText : string;
  h2Text : string;
  descriptionText : string;
  dateText : string;
  placeText : string;
  heroSrc : string;
  attributionText : string
}.

Record State : Type := {
  (** the persisted [chapter] parameter *)
  chapterParam : option string;
  (** [forwardButton.disabled] *)
  forwardDisabled : bool;
  (** the two values interpolated into [#chapter-index] *)
  chapterIndexDisplay : Z * nat;
  (** the [active] class of the two navigation panes *)
  introActive : bool;
  detailActive : bool;
  detailContent : Content;
  (** the last camera command: coordinates and duration *)
  camera : option (Coords * Z)
}.

Definition setChapterParam (v : option string) (s : State) : State :=
  {| chapterParam := v; forwardDisabled := forwardDisabled s;
     chapterIndexDisplay := chapterIndexDisplay s;
     introActive := introActive s; detailActive := detailActive s;
     detailContent := detailContent s; camera := camera s |}.

Definition setReadout (d : Z * nat) (f : bool) (s : State) : State :=
  {| chapterParam := chapterParam s; forwardDisabled := f;
     chapterIndexDisplay := d;
     introActive := introActive s; detailActive := detailActive s;
     detailContent := detailContent s; camera := camera s |}.

Definition setActive (i d : bool) (s : State) : State :=
  {| chapterParam := chapterParam s; forwardDisabled := forwardDisabled s;
     chapterIndexDisplay := chapterIndexDisplay s;
     introActive := i; detailActive := d;
     detailContent := detailContent s; camera := camera s |}.

Definition setContent (v : Content) (s : State) : State :=
  {| chapterParam := chapterParam s; forwardDisabled := forwardDisabled s;
     chapterIndexDisplay := chapterIndexDisplay s;
     introActive := introActive s; detailActive := detailActive s;
     detailContent := v; camera := camera s |}.

Definition setCamera (v : option (Coords * Z)) (s : State) : State :=
  {| chapterParam := chapterParam s; forwardDisabled := forwardDisabled s;
     chapterIndexDisplay := chapterIndexDisplay s;
     introActive := introActive s; detailActive := detailActive s;
     detailContent := detailContent s; camera := v |}.

Inductive completion : Type :=
| Normal (s : State)
| Throw (s : State).

Definition outcome (c : completion) : State :=
  match c with
  | Normal s => s
  | Throw s => s
  end.

Definition completes (c : completion) : bool :=
  match c with
  | Normal _ => true
  | Throw _ => false
  end.

(** [Array.prototype.findIndex]: the first position whose element
    satisfies the test, or -1. *)
Fixpoint findIndex {A : Type} (test : A -> bool) (l : list A) : Z :=
  match l with
  | [] => (-1)%Z
  | x :: r =>
      if test x then 0%Z
      else let k := findIndex test r in
           if (k <? 0)%Z then (-1)%Z else (k + 1)%Z
  end.

Section Module.

Variable story : Story.

Definition chapterTitle (c : Chapter) : string := title (chapterDetails c).

(** [chapter.title === chapterParam]: [null] equals no title. *)
Definition titleIs (chapterParam : option string) (c : Chapter) : bool :=
  match chapterParam with
  | Some p => String.eqb (chapterTitle c) p
  | None => false
  end.

(** [story.chapters[z]] for an integer [z]. *)
Definition chapterAt (z : Z) : option Chapter :=
  if (z <? 0)%Z then None else nth_error (chapters story) (Z.to_nat z).

(** [getCurrentChapterIndex()] *)
Definition getCurrentChapterIndex (s : State) : Z :=
  let chapterParam := chapterParam s in
  findIndex (titleIs chapterParam) (chapters story).

(** [toggleNavigationElements(chapterParam)], its argument taken by its
    truthiness. *)
Definition toggleNavigationElements (chapterParam : bool) (s : State)
  : State :=
  setActive (negb chapterParam) chapterParam s.

(** [updateChapterContent(chapterData, isIntro)] *)
Definition updateChapterContent (chapterData : Details) (isIntro : bool)
  (s : State) : State :=
  let p := properties story in
  let imageCredit :=
    if isIntro then createdBy p
    else String.append "Image credit: " (imageCredit chapterData) in
  let s1 :=
    setContent
      {| storyTitleText := if isIntro then ""
                           else title (propertiesDetails p);
         h2Text := if isIntro then title (propertiesDetails p)
                   else title chapterData;
         descriptionText := if isIntro then description p
                            else content chapterData;
         dateText := date chapterData;
         placeText := place chapterData;
         heroSrc := imageUrl chapterData;
         attributionText := imageCredit |} s in
  let chapterIndex := getCurrentChapterIndex s1 in
  setReadout ((chapterIndex + 1)%Z, chapterCount story)
             ((chapterIndex + 1 =? Z.of_nat (chapterCount story))%Z) s1.

(** [resetToIntro()] *)
Definition resetToIntro (s : State) : State :=
  let s1 := setChapterParam None s in
  let s2 := updateChapterContent (propertiesDetails (properties story))
                                 true s1 in
  let s3 := toggleNavigationElements false s2 in
  setCamera (Some (propertiesCoords (properties story), 1%Z)) s3.

(** [updateChapter(chapterIndex)]: reading [coords] of [undefined]
    throws before anything is written. *)
Definition updateChapter (chapterIndex : Z) (s : State) : completion :=
  match chapterAt chapterIndex with
  | None => Throw s
  | Some c =>
      let s1 := setChapterParam (Some (chapterTitle c)) s in
      let s2 := updateChapterContent (chapterDetails c) false s1 in
      Normal (setCamera (Some (coords c, 2%Z)) s2)
  end.

(** [setPreviousChapter()] *)
Definition setPreviousChapter (s : State) : completion :=
  let newChapterIndex := (getCurrentChapterIndex s - 1)%Z in
  if (0 <=? newChapterIndex)%Z
  then updateChapter newChapterIndex s
  else Normal (resetToIntro s).

(** [setNextChapter()] *)
Definition setNextChapter (s : State) : completion :=
  let newChapterIndex := (getCurrentChapterIndex s + 1)%Z in
  if (newChapterIndex <? Z.of_nat (chapterCount story))%Z
  then updateChapter newChapterIndex s
  else Normal s.

(** [initChapterNavigation()], the listeners apart. *)
Definition initChapterNavigation (s : State) : State :=
  let chapterParam := chapterParam s in
  let chapterData := find (titleIs chapterParam) (chapters story) in
  match chapterData with
  | Some c =>
      updateChapterContent (chapterDetails c) false
                           (toggleNavigationElements true s)
  | None =>
      updateChapterContent (propertiesDetails (properties story)) true
                           (toggleNavigationElements false s)
  end.

(** The start listener: [toggleNavigationElements(true)] and then
    [updateChapter(0)]. *)
Definition startButtonClick (s : State) : completion :=
  updateChapter 0%Z (toggleNavigationElements true s).

End Module.

(** The page as loaded with the given parameter. *)
Definition pageLoad (param : option string) : State :=
  {| chapterParam := param; forwardDisabled := false;
     chapterIndexDisplay := (0%Z, O);
     introActive := false; detailActive := false;
     detailContent := {| storyTitleText := ""; h2Text := "";
                         descriptionText := ""; dateText := "";
                         placeText := ""; heroSrc := "";
                         attributionText := "" |};
     camera := None |}.

(** Runs a list of steps, a throwing one leaving its state behind. *)
Fixpoint after (steps : list (State -> completion)) (s : State) : State :=
  match steps with
  | [] => s
  | c :: r => after r (outcome (c s))
  end.

End Legacy.

(** Three chapters titled A, B and A again. *)
Definition storyABA : Story :=
  {| properties := overview;
     chapters := [sampleChapter "0" "A" 0; sampleChapter "1" "B" 1;
                  sampleChapter "2" "A" 2] |}.

(** ** Examples *)

Example Number_null : JS.Number None = JS.Fin 0.
Proof. reflexivity. Qed.

Example Number_two : JS.Number (Some "2") = JS.ofZ 2.
Proof. reflexivity. Qed.

Example Number_padded : JS.Number (Some " 12 ") = JS.ofZ 12.
Proof. vm_compute. reflexivity. Qed.

Example Number_empty : JS.Number (Some "") = JS.ofZ 0.
Proof. reflexivity. Qed.

Example Number_word : JS.Number (Some "graceland") = JS.NaN.
Proof. reflexivity. Qed.

Example Number_half : JS.Number (Some "1.5") = JS.Fin (3 # 2).
Proof. reflexivity. Qed.

Example Number_hex : JS.Number (Some "0x1f") = JS.ofZ 31.
Proof. reflexivity. Qed.

Example Number_exp : JS.Number (Some "-2.50e1") = JS.ofZ (-25).
Proof. reflexivity. Qed.

Example Number_signed_hex : JS.Number (Some "-0x10") = JS.NaN.
Proof. reflexivity. Qed.

Example Number_dot : JS.Number (Some ".") = JS.NaN.
Proof. reflexivity. Qed.

Example Number_trailing : JS.Number (Some "7px") = JS.NaN.
Proof. reflexivity. Qed.

Example walk_ABC :
  let s := after [startButtonClick storyABC; setNextChapter storyABC;
                  setNextChapter storyABC] (loaded storyABC None) in
  chapterIdParam s = Some "2" /\ forwardDisabled s = true
  /\ chapterIndexDisplay s = (JS.ofZ 3, 3%nat) /\ selectedMarker s = Some 2%nat.
Proof. vm_compute. repeat split. Qed.

(** The walk of the three-chapter story: forward to C, once more without
    effect, then back through B and A to the intro. *)
Example walk_ABC_and_back :
  let start := after [startButtonClick storyABC] (loaded storyABC None) in
  let atC := after [setNextChapter storyABC; setNextChapter storyABC] start in
  let back1 := after [setPreviousChapter storyABC] atC in
  let back4 := after [setPreviousChapter storyABC; setPreviousChapter storyABC;
                      setPreviousChapter storyABC] back1 in
  chapterIndexDisplay start = (JS.ofZ 1, 3%nat)
  /\ forwardDisabled start = false
  /\ setNextChapter storyABC atC = Normal atC
  /\ chapterIdParam back1 = Some "1"
  /\ chapterIdParam back4 = None
  /\ introActive back4 = true /\ detailActive back4 = false.
Proof. vm_compute. repeat split. Qed.

(** Autoplay from chapter A fires until C and stops itself; toggled again
    before C it pauses where it is. *)
Example autoplay_ABC :
  let played := run storyABC [StartClick; AutoplayClick; TimerFires 1;
                              TimerFires 1; TimerFires 1; TimerFires 1]
                    (loaded storyABC None) in
  let paused := run storyABC [StartClick; AutoplayClick; TimerFires 1;
                              AutoplayClick; TimerFires 1]
                    (loaded storyABC None) in
  chapterIdParam played = Some "2" /\ intervalId played = None
  /\ timers played = [] /\ autoplayIcon played = PLAY_ICON
  /\ chapterIdParam paused = Some "1" /\ intervalId paused = None
  /\ timers paused = [].
Proof. vm_compute. repeat split. Qed.

(** ** Arithmetic of the index computations *)
Module JSFacts.
Import JS.
Local Open Scope Z_scope.

Lemma Qltb_lt (x y : Q) : Qltb x y = true <-> (x < y)%Q.
Proof. unfold Qltb, Qlt. apply Z.ltb_lt. Qed.

Lemma Qltb_ge (x y : Q) : Qltb x y = false <-> (y <= x)%Q.
Proof. unfold Qltb, Qle. apply Z.ltb_ge. Qed.

Lemma Qred_inject_Z (z : Z) : Qred (inject_Z z) = inject_Z z.
Proof.
  apply Qred_identity. unfold inject_Z. simpl. apply Z.gcd_1_r.
Qed.

Lemma Qred_integer (q : Q) (z : Z) : (q == inject_Z z)%Q -> Qred q = inject_Z z.
Proof.
  intros H. rewrite <- Qred_inject_Z. now apply Qred_complete.
Qed.

Lemma add_ofZ (a b : Z) : add (ofZ a) (ofZ b) = ofZ (a + b).
Proof.
  unfold add, ofZ. f_equal. apply Qred_integer.
  now rewrite inject_Z_plus.
Qed.

Lemma sub_ofZ (a b : Z) : sub (ofZ a) (ofZ b) = ofZ (a - b).
Proof.
  unfold sub, neg, add, ofZ. f_equal. apply Qred_integer.
  rewrite Qred_correct. unfold Z.sub.
  now rewrite inject_Z_plus, inject_Z_opp.
Qed.

Lemma lt_ofZ (a b : Z) : lt (ofZ a) (ofZ b) = (a <? b).
Proof.
  unfold lt, ofZ, Qltb, inject_Z. simpl. now rewrite !Z.mul_1_r.
Qed.

Lemma ge_ofZ (a b : Z) : ge (ofZ a) (ofZ b) = (b <=? a).
Proof.
  unfold ge. change (negb (lt (ofZ a) (ofZ b)) = (b <=? a)).
  rewrite lt_ofZ. now rewrite Z.leb_antisym.
Qed.

Lemma strictEq_ofZ (a b : Z) : strictEq (ofZ a) (ofZ b) = (a =? b).
Proof.
  apply eq_true_iff_eq. unfold strictEq, ofZ.
  rewrite Qeq_bool_iff, Z.eqb_eq. split.
  - apply inject_Z_injective.
  - now intros ->.
Qed.

Lemma arrayIndex_ofNat (i : nat) : arrayIndex (ofNat i) = Some i.
Proof.
  unfold arrayIndex, ofNat, ofZ, inject_Z. simpl.
  rewrite Z.mod_1_r, Z.div_1_r. simpl.
  destruct (Z.leb_spec 0 (Z.of_nat i)); [|lia].
  now rewrite Nat2Z.id.
Qed.

Lemma arrayIndex_negative (z : Z) : z < 0 -> arrayIndex (ofZ z) = None.
Proof.
  intros H. unfold arrayIndex, ofZ, inject_Z. simpl.
  destruct (Z.leb_spec 0 z); [lia|]. now rewrite andb_false_r.
Qed.

(** A number that designates a position is that integer. *)
Lemma arrayIndex_value (q : Q) (i : nat) :
  arrayIndex (Fin q) = Some i -> (q == inject_Z (Z.of_nat i))%Q.
Proof.
  unfold arrayIndex. destruct q as [n d]. simpl.
  destruct (Z.eqb_spec (n mod Z.pos d) 0) as [M|M]; [|discriminate].
  destruct (Z.leb_spec 0 n) as [P|P]; [|discriminate].
  simpl. intros [= <-].
  unfold Qeq, inject_Z. simpl.
  rewrite Z2Nat.id by (apply Z.div_pos; lia).
  rewrite Z.mul_1_r.
  apply Z.div_exact in M; lia.
Qed.

Lemma arrayIndex_add1 (x : number) (i : nat) :
  arrayIndex x = Some i -> add x (ofZ 1) = ofNat (S i).
Proof.
  destruct x as [| | |q]; try discriminate. intros H.
  apply arrayIndex_value in H.
  unfold add, ofZ, ofNat, ofZ. f_equal. apply Qred_integer.
  rewrite H, <- inject_Z_plus, Nat2Z.inj_succ. reflexivity.
Qed.

Lemma arrayIndex_sub1 (x : number) (i : nat) :
  arrayIndex x = Some i -> sub x (ofZ 1) = ofZ (Z.of_nat i - 1).
Proof.
  destruct x as [| | |q]; try discriminate. intros H.
  apply arrayIndex_value in H.
  unfold sub, neg, add, ofZ. f_equal. apply Qred_integer.
  rewrite Qred_correct, H. unfold Z.sub.
  now rewrite inject_Z_plus, inject_Z_opp.
Qed.

(** [x + 1 === n] exactly when [x === n - 1]. *)
Lemma strictEq_add1 (x : number) (n : nat) :
  strictEq (add x (ofZ 1)) (ofNat n) = strictEq x (sub (ofNat n) (ofZ 1)).
Proof.
  unfold ofNat. rewrite sub_ofZ.
  destruct x as [| | |q]; try reflexivity.
  unfold add, ofZ, strictEq.
  apply eq_true_iff_eq. rewrite !Qeq_bool_iff, Qred_correct.
  unfold Z.sub. rewrite inject_Z_plus, inject_Z_opp.
  split; intros H.
  - rewrite <- H. ring.
  - rewrite H. ring.
Qed.

(** At [x === n - 1] the test [x + 1 < n] fails. *)
Lemma lt_add1_last (x : number) (n : nat) :
  strictEq x (sub (ofNat n) (ofZ 1)) = true ->
  lt (add x (ofZ 1)) (ofNat n) = false.
Proof.
  rewrite <- strictEq_add1.
  destruct (add x (ofZ 1)) as [| | |q]; try discriminate.
  unfold strictEq, lt, ofNat, ofZ. rewrite Qeq_bool_iff. intros H.
  apply Qltb_ge. rewrite H. apply Qle_refl.
Qed.

End JSFacts.

(** ** What each function leaves behind *)
Section Effects.

Variable story : Story.

Lemma sameTimer_refl (s : State) : sameTimer s s.
Proof. repeat split. Qed.

Lemma updateChapterContent_eq (d : Details) (b : bool) (s : State) :
  updateChapterContent story d b s =
  Normal
    (setForwardDisabled
       (JS.strictEq (JS.add (getCurrentChapterIndex s) (JS.ofZ 1))
                    (JS.ofNat (chapterCount story)))
       (setChapterIndexDisplay
          (JS.add (getCurrentChapterIndex s) (JS.ofZ 1), chapterCount story)
          (setContent (renderedContent story d b) s))).
Proof.
  unfold updateChapterContent, andThen, updateDetailsNavigation,
    updateChapterIndexAndNavigation, does.
  unfold getCurrentChapterIndex, getParams.
  destruct (JS.strictEq (JS.add (JS.Number (chapterIdParam s)) (JS.ofZ 1))
                        (JS.ofNat (chapterCount story))) eqn:E;
    cbn [chapterIdParam setContent setForwardDisabled setChapterIndexDisplay];
    rewrite E; reflexivity.
Qed.

Ltac step_through :=
  unfold andThen, setParams, setSelectedMarker, activateNavigationElement,
    removeCustomRadiusShader, createCustomRadiusShader, performFlyTo, does;
  rewrite ?updateChapterContent_eq.

Lemma resetToIntro_completes (s : State) :
  exists s', resetToIntro story s = Normal s'
    /\ introState s' /\ sameTimer s s'
    /\ getCurrentChapterIndex s' = JS.ofZ 0
    /\ forwardDisabled s'
       = JS.strictEq (JS.add (JS.ofZ 0) (JS.ofZ 1))
                     (JS.ofNat (chapterCount story)).
Proof.
  unfold resetToIntro. step_through.
  eexists. split; [reflexivity|].
  repeat split.
Qed.

Lemma updateChapter_found (x : JS.number) (i : nat) (c : Chapter)
  (s : State) :
  chapterAt story x = Some (i, c) ->
  exists s', updateChapter story x s = Normal s'
    /\ chapterIdParam s' = Some (id c)
    /\ selectedMarker s' = Some i
    /\ introActive s' = false /\ detailActive s' = true
    /\ radiusShader s' = Some (coords c, HIGHLIGHT_RADIUS)
    /\ sameTimer s s'
    /\ forwardDisabled s'
       = JS.strictEq (JS.add (JS.Number (Some (id c))) (JS.ofZ 1))
                     (JS.ofNat (chapterCount story)).
Proof.
  intros H. unfold updateChapter. rewrite H. step_through.
  eexists. split; [reflexivity|].
  repeat split.
Qed.

Lemma updateChapter_missing (x : JS.number) (s : State) :
  chapterAt story x = None -> updateChapter story x s = Throw s.
Proof. intros H. unfold updateChapter. now rewrite H. Qed.

Lemma chapterAt_ofNat (i : nat) (c : Chapter) :
  nth_error (chapters story) i = Some c ->
  chapterAt story (JS.ofNat i) = Some (i, c).
Proof.
  intros H. unfold chapterAt. now rewrite JSFacts.arrayIndex_ofNat, H.
Qed.

Lemma chapterAt_inv (x : JS.number) (i : nat) (c : Chapter) :
  chapterAt story x = Some (i, c) ->
  JS.arrayIndex x = Some i /\ nth_error (chapters story) i = Some c
  /\ (i < chapterCount story)%nat.
Proof.
  unfold chapterAt. destruct (JS.arrayIndex x) as [j|]; [|discriminate].
  destruct (nth_error (chapters story) j) as [c'|] eqn:E; [|discriminate].
  intros [= <- <-]. repeat split; auto.
  apply nth_error_Some. congruence.
Qed.

Lemma chapterAt_in_range (i : nat) :
  (i < chapterCount story)%nat ->
  exists c, nth_error (chapters story) i = Some c.
Proof.
  intros H. destruct (nth_error (chapters story) i) as [c|] eqn:E.
  - now exists c.
  - apply nth_error_None in E. unfold chapterCount in H. lia.
Qed.

(** Navigation never touches the autoplay slot, whether it completes or
    throws. *)
Lemma updateChapter_sameTimer (x : JS.number) (s : State) :
  sameTimer s (outcome (updateChapter story x s)).
Proof.
  destruct (chapterAt story x) as [[i c]|] eqn:E.
  - destruct (updateChapter_found x i c s E) as (s' & -> & H). apply H.
  - rewrite updateChapter_missing by assumption. apply sameTimer_refl.
Qed.

Lemma resetToIntro_sameTimer (s : State) :
  sameTimer s (outcome (resetToIntro story s)).
Proof.
  destruct (resetToIntro_completes s) as (s' & -> & H). apply H.
Qed.

Lemma setNextChapter_sameTimer (s : State) :
  sameTimer s (outcome (setNextChapter story s)).
Proof.
  unfold setNextChapter.
  destruct (JS.lt _ _).
  - apply updateChapter_sameTimer.
  - apply sameTimer_refl.
Qed.

Lemma setPreviousChapter_sameTimer (s : State) :
  sameTimer s (outcome (setPreviousChapter story s)).
Proof.
  unfold setPreviousChapter.
  destruct (JS.ge _ _).
  - apply updateChapter_sameTimer.
  - apply resetToIntro_sameTimer.
Qed.

End Effects.

(** ** Reading the current chapter index *)

Lemma getCurrentChapterIndex_absent (s : State) :
  chapterIdParam s = None -> getCurrentChapterIndex s = JS.ofZ 0.
Proof. unfold getCurrentChapterIndex, getParams. now intros ->. Qed.

Lemma validIndex_first (story : Story) :
  chapters story <> [] -> validIndex story (JS.ofZ 0) = true.
Proof.
  intros H. unfold validIndex, chapterAt.
  change (JS.ofZ 0) with (JS.ofNat 0). rewrite JSFacts.arrayIndex_ofNat.
  destruct (chapters story); [contradiction | reflexivity].
Qed.

(** C1. Reading the index, which never throws, does not resolve an absent
    parameter to "no current chapter": with no parameter set and at least
    one chapter in the store, [getCurrentChapterIndex] returns 0, the valid
    position of the first chapter, while [initChapterNavigation] resolves
    the same state to the intro pane.  A parameter that converts to no
    number does read as [NaN], which is no position. *)
Theorem C1_absent_parameter_reads_as_first_chapter
  (story : Story) (s : State) :
  chapterIdParam s = None ->
  chapters story <> [] ->
  getCurrentChapterIndex s = JS.ofZ 0
  /\ validIndex story (getCurrentChapterIndex s) = true
  /\ (exists s', initChapterNavigation story s = Normal s'
                 /\ chapterIdParam s' = None
                 /\ introActive s' = true /\ detailActive s' = false
                 /\ validIndex story (getCurrentChapterIndex s') = true)
  /\ (forall s' v, chapterIdParam s' = Some v ->
        JS.StringToNumber v = JS.NaN ->
        validIndex story (getCurrentChapterIndex s') = false).
Proof.
  intros P N. rewrite (getCurrentChapterIndex_absent s P).
  pose proof (validIndex_first story N) as V.
  split; [reflexivity|]. split; [exact V|]. split.
  - unfold initChapterNavigation, getParams. rewrite P.
    unfold andThen, activateNavigationElement, does.
    rewrite updateChapterContent_eq.
    eexists. split; [reflexivity|].
    unfold getCurrentChapterIndex, getParams.
    cbn [chapterIdParam introActive detailActive setForwardDisabled
         setChapterIndexDisplay setContent setActive navEq].
    rewrite P. repeat split. exact V.
  - intros s' v P' V'. unfold getCurrentChapterIndex, getParams.
    rewrite P'. simpl. now rewrite V'.
Qed.

Lemma C1_absent_parameter_witness :
  chapterIdParam (pageLoad None) = None
  /\ chapters storyABC <> []
  /\ validIndex storyABC (getCurrentChapterIndex (pageLoad None)) = true.
Proof.
  assert (P : chapterIdParam (pageLoad None) = None) by reflexivity.
  assert (N : chapters storyABC <> []) by discriminate.
  split; [exact P | split; [exact N|]].
  exact (proj1 (proj2
           (C1_absent_parameter_reads_as_first_chapter storyABC _ P N))).
Defined.

(** A parameter that matches no chapter's id may still read as a valid
    position. *)
Example unmatched_parameter_reads_as_position :
  matchesChapter storyABC "01" = false
  /\ getCurrentChapterIndex (loaded storyABC (Some "01")) = JS.ofZ 1
  /\ validIndex storyABC (getCurrentChapterIndex (loaded storyABC (Some "01")))
     = true.
Proof. vm_compute. repeat split. Qed.

(** ** Going to a chapter *)

(** In a store whose chapter ids are not their positions, going to chapter 0 and reading the index gives [NaN]. *)
Lemma named_ids_do_not_read_back :
  (0 < chapterCount storyNamed)%nat
  /\ ~ readsBackAfterGoTo storyNamed 0 (loaded storyNamed None).
Proof.
  split; [vm_compute; lia|].
  intros (s' & H & R).
  vm_compute in H. injection H as <-.
  vm_compute in R. discriminate R.
Qed.

(** In a store whose chapter ids are the chapter positions,
    for every valid index [i] with [0 <= i < chapterCount],
    [updateChapter(i)] completes and reading the current chapter index
    afterwards returns [i]. *)
Theorem updateChapter_then_read_at_positions (story : Story) (i : nat) (s : State) :
  idsArePositions story ->
  (i < chapterCount story)%nat ->
  readsBackAfterGoTo story i s.
Proof.
  intros W R.
  destruct (chapterAt_in_range story i R) as [c C].
  destruct (updateChapter_found story _ i c s (chapterAt_ofNat story i c C))
    as (s' & E & P & _).
  exists s'. split; [exact E|].
  unfold getCurrentChapterIndex, getParams. rewrite P. now apply W.
Qed.

Lemma idsArePositions_storyABC : idsArePositions storyABC.
Proof.
  intros i c H.
  destruct i as [|[|[|i]]]; simpl in H; try (injection H as <-; reflexivity).
  now destruct i.
Defined.

Lemma updateChapter_then_read_at_positions_witness :
  idsArePositions storyABC /\ (2 < chapterCount storyABC)%nat
  /\ readsBackAfterGoTo storyABC 2 (loaded storyABC None).
Proof.
  assert (R : (2 < chapterCount storyABC)%nat) by (vm_compute; lia).
  split; [exact idsArePositions_storyABC | split; [exact R|]].
  exact (updateChapter_then_read_at_positions storyABC 2 _ idsArePositions_storyABC R).
Defined.

(** ** Stepping forward and back *)

Lemma lt_not_ge (x y : JS.number) : JS.lt x y = true -> JS.ge x y = false.
Proof.
  destruct x, y; simpl; intros H; try discriminate; try reflexivity.
  now rewrite H.
Qed.

Lemma sub1_at_zero (x : JS.number) :
  JS.strictEq x (JS.ofZ 0) = true -> JS.sub x (JS.ofZ 1) = JS.ofZ (-1).
Proof.
  destruct x as [| | |q]; try discriminate.
  unfold JS.strictEq, JS.ofZ. rewrite Qeq_bool_iff. intros H.
  unfold JS.sub, JS.neg, JS.add. f_equal. apply JSFacts.Qred_integer.
  rewrite Qred_correct, H. reflexivity.
Qed.

Lemma setNextChapter_at_last (story : Story) (s : State) :
  JS.strictEq (getCurrentChapterIndex s) (lastIndex story) = true ->
  setNextChapter story s = Normal s.
Proof.
  intros L. apply JSFacts.lt_add1_last in L.
  unfold setNextChapter. now rewrite L.
Qed.

(** C3. At the last valid index [chapterCount - 1], [setNextChapter] is a
    no-op: it completes, the state is the one it started from, so the
    persisted parameter and the index read from it are unchanged and
    nothing wraps to chapter 0; whenever [index + 1 < chapterCount] it is
    the call [updateChapter(index + 1)], and otherwise it does nothing. *)
Theorem C3_setNextChapter_last_and_delegation (story : Story) (s : State) :
  let index := getCurrentChapterIndex s in
  (JS.strictEq index (lastIndex story) = true ->
     setNextChapter story s = Normal s
     /\ chapterIdParam (outcome (setNextChapter story s)) = chapterIdParam s
     /\ getCurrentChapterIndex (outcome (setNextChapter story s)) = index)
  /\ (JS.lt (JS.add index (JS.ofZ 1)) (JS.ofNat (chapterCount story)) = true ->
        setNextChapter story s
        = updateChapter story (JS.add index (JS.ofZ 1)) s)
  /\ (JS.lt (JS.add index (JS.ofZ 1)) (JS.ofNat (chapterCount story)) = false ->
        setNextChapter story s = Normal s).
Proof.
  intros index. split; [|split].
  - intros L. rewrite (setNextChapter_at_last story s L). repeat split.
  - intros L. unfold setNextChapter. fold index. now rewrite L.
  - intros L. unfold setNextChapter. fold index. now rewrite L.
Qed.

Lemma C3_setNextChapter_witness :
  JS.strictEq (getCurrentChapterIndex atChapterC) (lastIndex storyABC) = true
  /\ setNextChapter storyABC atChapterC = Normal atChapterC
  /\ setNextChapter storyABC atChapterA
     = updateChapter storyABC (JS.ofZ 1) atChapterA.
Proof.
  split; [reflexivity|]. split.
  - apply (proj1 (C3_setNextChapter_last_and_delegation storyABC atChapterC)).
    reflexivity.
  - apply (proj1 (proj2
      (C3_setNextChapter_last_and_delegation storyABC atChapterA))).
    reflexivity.
Defined.

(** Stepping back from chapter 0 reaches the intro state, but the index read there is 0, the position
    of the first chapter. *)
Lemma index_after_step_back_is_first :
  ~ retreatAtFirstResolvesToNone storyABC atChapterA.
Proof.
  intros H. destruct H as (s' & E & _ & V); [reflexivity|].
  vm_compute in E. injection E as <-.
  vm_compute in V. discriminate V.
Qed.

(** [setPreviousChapter] is the call [updateChapter(index-1)]
    when [index - 1 >= 0] and the call [resetToIntro()] when
    [index - 1 < 0]; [resetToIntro] always completes in the intro state
    (parameter cleared, intro pane active, no marker, no highlight); in
    particular stepping back at index 0, and stepping back from the intro
    state, both end in the intro state. *)
Theorem setPreviousChapter_delegation (story : Story) (s : State) :
  let newChapterIndex := JS.sub (getCurrentChapterIndex s) (JS.ofZ 1) in
  (JS.ge newChapterIndex (JS.ofZ 0) = true ->
     setPreviousChapter story s = updateChapter story newChapterIndex s)
  /\ (JS.lt newChapterIndex (JS.ofZ 0) = true ->
        setPreviousChapter story s = resetToIntro story s)
  /\ (exists s', resetToIntro story s = Normal s' /\ introState s')
  /\ (JS.strictEq (getCurrentChapterIndex s) (JS.ofZ 0) = true ->
        exists s', setPreviousChapter story s = Normal s' /\ introState s')
  /\ (introState s ->
        exists s', setPreviousChapter story s = Normal s' /\ introState s').
Proof.
  intros newChapterIndex.
  assert (R : exists s', resetToIntro story s = Normal s' /\ introState s').
  { destruct (resetToIntro_completes story s) as (s' & E & I & _).
    now exists s'. }
  assert (Z0 : JS.strictEq (getCurrentChapterIndex s) (JS.ofZ 0) = true ->
               setPreviousChapter story s = resetToIntro story s).
  { intros Z. unfold setPreviousChapter.
    rewrite (sub1_at_zero _ Z), JSFacts.ge_ofZ. reflexivity. }
  repeat apply conj.
  - intros G. unfold setPreviousChapter. fold newChapterIndex.
    destruct (JS.ge newChapterIndex (JS.ofZ 0));
      [reflexivity | discriminate G].
  - intros L. apply lt_not_ge in L.
    unfold setPreviousChapter. fold newChapterIndex.
    destruct (JS.ge newChapterIndex (JS.ofZ 0));
      [discriminate L | reflexivity].
  - exact R.
  - intros Z. now rewrite (Z0 Z).
  - intros (P & _). rewrite Z0; [exact R|].
    now rewrite (getCurrentChapterIndex_absent s P).
Qed.

Lemma setPreviousChapter_delegation_witness :
  JS.strictEq (getCurrentChapterIndex atChapterA) (JS.ofZ 0) = true
  /\ (exists s', setPreviousChapter storyABC atChapterA = Normal s'
                 /\ introState s')
  /\ setPreviousChapter storyABC atChapterC
     = updateChapter storyABC (JS.ofZ 1) atChapterC.
Proof.
  split; [reflexivity|]. split.
  - destruct (setPreviousChapter_delegation storyABC atChapterA)
      as (_ & _ & _ & H & _).
    apply H. reflexivity.
  - destruct (setPreviousChapter_delegation storyABC atChapterC)
      as (H & _).
    apply H. reflexivity.
Defined.

(** C9. With no parameter persisted, [getCurrentChapterIndex] returns 0,
    the same number a state whose parameter converts to 0 reads, so a
    forward step from the intro state is the call [updateChapter(1)]: in a
    store of at least two chapters it completes at the chapter of position
    1, with that chapter's id persisted and its marker selected. *)
Theorem C9_forward_from_intro_skips_first (story : Story) (s : State) :
  chapterIdParam s = None ->
  getCurrentChapterIndex s = JS.ofZ 0
  /\ (forall s0, JS.Number (chapterIdParam s0) = JS.ofZ 0 ->
        getCurrentChapterIndex s0 = getCurrentChapterIndex s)
  /\ ((1 < chapterCount story)%nat ->
        setNextChapter story s = updateChapter story (JS.ofZ 1) s
        /\ exists c s', nth_error (chapters story) 1 = Some c
             /\ setNextChapter story s = Normal s'
             /\ chapterIdParam s' = Some (id c)
             /\ selectedMarker s' = Some 1%nat).
Proof.
  intros P. pose proof (getCurrentChapterIndex_absent s P) as I0.
  split; [exact I0|]. split.
  - intros s0 H. rewrite I0. exact H.
  - intros R.
    assert (E : setNextChapter story s = updateChapter story (JS.ofZ 1) s).
    { unfold setNextChapter. rewrite I0, JSFacts.add_ofZ. simpl Z.add.
      unfold JS.ofNat. rewrite JSFacts.lt_ofZ.
      destruct (Z.ltb_spec 1 (Z.of_nat (chapterCount story))); [reflexivity|lia]. }
    split; [exact E|].
    destruct (chapterAt_in_range story 1 R) as [c C].
    destruct (updateChapter_found story _ 1 c s (chapterAt_ofNat story 1 c C))
      as (s' & U & Q & M & _).
    exists c, s'. rewrite E. auto.
Qed.

Lemma C9_forward_from_intro_witness :
  chapterIdParam (loaded storyABC None) = None
  /\ getCurrentChapterIndex (loaded storyABC None) = JS.ofZ 0
  /\ chapterIdParam (outcome (setNextChapter storyABC (loaded storyABC None)))
     = Some "1".
Proof.
  assert (P : chapterIdParam (loaded storyABC None) = None) by reflexivity.
  split; [exact P|]. split.
  - exact (proj1 (C9_forward_from_intro_skips_first storyABC _ P)).
  - reflexivity.
Defined.

Lemma getCurrentChapterIndex_NaN (s : State) (v : string) :
  chapterIdParam s = Some v -> JS.StringToNumber v = JS.NaN ->
  getCurrentChapterIndex s = JS.NaN.
Proof.
  intros P V. unfold getCurrentChapterIndex, getParams. rewrite P. exact V.
Qed.

(** C10. When the persisted parameter is a string that converts to no
    number, [getCurrentChapterIndex] returns [NaN]; from such a state
    [setNextChapter] is a no-op and [setPreviousChapter] is the call
    [resetToIntro()], which completes in the intro state: neither
    throws. *)
Theorem C10_not_a_number_parameter (story : Story) (s : State) (v : string) :
  chapterIdParam s = Some v ->
  JS.StringToNumber v = JS.NaN ->
  getCurrentChapterIndex s = JS.NaN
  /\ setNextChapter story s = Normal s
  /\ setPreviousChapter story s = resetToIntro story s
  /\ exists s', setPreviousChapter story s = Normal s' /\ introState s'.
Proof.
  intros P V. pose proof (getCurrentChapterIndex_NaN s v P V) as N.
  assert (B : setPreviousChapter story s = resetToIntro story s).
  { unfold setPreviousChapter. now rewrite N. }
  split; [exact N|]. split; [|split; [exact B|]].
  - unfold setNextChapter. now rewrite N.
  - rewrite B.
    destruct (resetToIntro_completes story s) as (s' & E & I & _).
    now exists s'.
Qed.

Lemma C10_not_a_number_witness :
  chapterIdParam (loaded storyABC (Some "graceland")) = Some "graceland"
  /\ JS.StringToNumber "graceland" = JS.NaN
  /\ setNextChapter storyABC (loaded storyABC (Some "graceland"))
     = Normal (loaded storyABC (Some "graceland")).
Proof.
  assert (P : chapterIdParam (loaded storyABC (Some "graceland"))
              = Some "graceland") by reflexivity.
  assert (V : JS.StringToNumber "graceland" = JS.NaN) by reflexivity.
  split; [exact P|]. split; [exact V|].
  exact (proj1 (proj2 (C10_not_a_number_parameter storyABC _ _ P V))).
Defined.

(** ** Rendering *)

(** The control after a render, as the last statement of
    [updateChapterIndexAndNavigation] computes it from the index. *)
Lemma forward_control (story : Story) (x : JS.number) (b : bool) :
  b = JS.strictEq (JS.add x (JS.ofZ 1)) (JS.ofNat (chapterCount story)) ->
  (JS.strictEq x (lastIndex story) = true -> b = true)
  /\ (validIndex story x = true ->
        JS.strictEq x (lastIndex story) = false -> b = false).
Proof.
  intros ->. rewrite JSFacts.strictEq_add1. fold (lastIndex story).
  split; [auto|]. intros _ H. exact H.
Qed.

(** C8. Every render, whatever state it starts from and whatever it is
    given to show, completes and recomputes the forward control from the
    index it reads: disabled when the current index is
    [chapterCount - 1], enabled at every other valid index.  The renders
    inside [updateChapter] and [resetToIntro] leave the control in the
    state that fits the index read afterwards. *)
Theorem C8_forward_disabled_exactly_at_last
  (story : Story) (chapterData : Details) (isIntro : bool) (s : State) :
  (exists s', updateChapterContent story chapterData isIntro s = Normal s'
     /\ getCurrentChapterIndex s' = getCurrentChapterIndex s
     /\ forwardDisabled s'
        = JS.strictEq (JS.add (getCurrentChapterIndex s) (JS.ofZ 1))
                      (JS.ofNat (chapterCount story))
     /\ forwardControlFits story s')
  /\ (forall x s', updateChapter story x s = Normal s' ->
        forwardControlFits story s')
  /\ (forall s', resetToIntro story s = Normal s' ->
        forwardControlFits story s').
Proof.
  split; [|split].
  - rewrite updateChapterContent_eq. eexists. split; [reflexivity|].
    split; [reflexivity|]. split; [reflexivity|].
    apply forward_control. reflexivity.
  - intros x s' U.
    destruct (chapterAt story x) as [[i c]|] eqn:E.
    + destruct (updateChapter_found story x i c s E)
        as (s1 & U1 & P & _ & _ & _ & _ & _ & F).
      rewrite U1 in U. injection U as <-.
      apply forward_control. rewrite F.
      unfold getCurrentChapterIndex, getParams. now rewrite P.
    + rewrite updateChapter_missing in U by assumption. discriminate U.
  - intros s' U.
    destruct (resetToIntro_completes story s) as (s1 & U1 & _ & _ & I & F).
    rewrite U1 in U. injection U as <-.
    apply forward_control. now rewrite F, I.
Qed.

Lemma C8_forward_disabled_witness :
  forwardDisabled atChapterC = true /\ forwardDisabled atChapterA = false
  /\ exists s', updateChapterContent storyABC
                  (propertiesDetails overview) true atChapterC = Normal s'
                /\ forwardDisabled s' = true.
Proof.
  split; [reflexivity|]. split; [reflexivity|].
  destruct (C8_forward_disabled_exactly_at_last storyABC
              (propertiesDetails overview) true atChapterC)
    as ((s' & E & I & _ & F & _) & _).
  exists s'. split; [exact E|]. apply F. rewrite I.
  vm_compute. reflexivity.
Defined.

(** ** The autoplay timer *)

Lemma cleared_not_live (h : positive) (l : list Timer) :
  existsb (fun t => Pos.eqb (handle t) h)
          (filter (fun t => negb (Pos.eqb (handle t) h)) l) = false.
Proof.
  induction l as [|t l IH]; [reflexivity|]. simpl.
  destruct (Pos.eqb (handle t) h) eqn:E; simpl; [exact IH|].
  now rewrite E.
Qed.

(** What [stopAutoplay] leaves behind: it always completes. *)
Lemma stopAutoplay_completes (s : State) :
  exists s', stopAutoplay s = Normal s'
    /\ intervalId s' = None
    /\ autoplayIcon s' = PLAY_ICON
    /\ chapterIdParam s' = chapterIdParam s
    /\ (forall h, intervalId s = Some h -> isLive h s' = false)
    /\ (singleSlot s -> timers s' = []).
Proof.
  unfold stopAutoplay, andThen, does, clearTimeout, singleSlot.
  destruct (intervalId s) as [h|] eqn:E;
    (eexists; split; [reflexivity|]);
    do 3 (split; [reflexivity|]); split.
  - intros h' [= <-]. apply cleared_not_live.
  - cbn [timers setIntervalId setTimers setAutoplayIcon]. intros ->.
    simpl. now rewrite Pos.eqb_refl.
  - discriminate.
  - intros T. exact T.
Qed.

Lemma stopAutoplay_when_stopped (s : State) :
  intervalId s = None ->
  stopAutoplay s = Normal (setIntervalId None (setAutoplayIcon PLAY_ICON s)).
Proof.
  intros H. unfold stopAutoplay, andThen, does, clearTimeout.
  now rewrite H.
Qed.

Lemma singleSlot_stopAutoplay (s : State) :
  singleSlot s -> singleSlot (outcome (stopAutoplay s)).
Proof.
  intros S. destruct (stopAutoplay_completes s) as (s' & -> & I & _ & _ & _ & T).
  unfold singleSlot. simpl. rewrite I. now apply T.
Qed.

Lemma singleSlot_sameTimer (s s' : State) :
  sameTimer s s' -> singleSlot s -> singleSlot s'.
Proof.
  intros (I & T & _) S. unfold singleSlot in *. now rewrite I, T.
Qed.

Lemma singleSlot_autoplayClickHandler (s : State) :
  singleSlot s -> singleSlot (outcome (autoplayClickHandler s)).
Proof.
  intros S. unfold autoplayClickHandler.
  destruct (intervalId s) as [h|] eqn:E.
  - now apply singleSlot_stopAutoplay.
  - unfold singleSlot in S. rewrite E in S.
    unfold singleSlot, setInterval. simpl. now rewrite S.
Qed.

(** After a stop no timer is live, so no firing changes anything. *)
Lemma ticks_without_timers (story : Story) (h : positive) (n : nat)
  (s : State) :
  timers s = [] -> ticks story h n s = s.
Proof.
  intros T. induction n as [|n IH]; [reflexivity|].
  simpl. unfold tick at 1. unfold isLive. rewrite T. simpl. exact IH.
Qed.

Lemma singleSlot_setNextAutoplayStep (story : Story) (s : State) :
  singleSlot s -> singleSlot (outcome (setNextAutoplayStep story s)).
Proof.
  intros S. unfold setNextAutoplayStep, andThen.
  pose proof (setNextChapter_sameTimer story s) as F.
  destruct (setNextChapter story s) as [s1|s1]; simpl in F.
  - apply (singleSlot_sameTimer _ _ F) in S.
    destruct (JS.strictEq _ _); [|exact S].
    now apply singleSlot_stopAutoplay.
  - simpl. now apply (singleSlot_sameTimer _ _ F).
Qed.

Lemma singleSlot_click (story : Story) (nav : cmd) (s : State) :
  sameTimer s (outcome (nav s)) ->
  singleSlot s -> singleSlot (outcome ((nav ;; stopAutoplay)%cmd s)).
Proof.
  intros F S. unfold andThen.
  destruct (nav s) as [s1|s1]; simpl in F |- *.
  - apply singleSlot_stopAutoplay. now apply (singleSlot_sameTimer _ _ F).
  - now apply (singleSlot_sameTimer _ _ F).
Qed.

Lemma singleSlot_handle_event (story : Story) (e : Event) (s : State) :
  singleSlot s -> singleSlot (handle_event story e s).
Proof.
  intros S. destruct e; simpl.
  - unfold startButtonClick, andThen, activateNavigationElement, does.
    eapply singleSlot_sameTimer; [apply updateChapter_sameTimer|].
    exact S.
  - apply (singleSlot_click story); [apply setNextChapter_sameTimer|exact S].
  - apply (singleSlot_click story);
      [apply setPreviousChapter_sameTimer|exact S].
  - now apply singleSlot_autoplayClickHandler.
  - unfold tick. destruct (isLive h s); [|exact S].
    now apply singleSlot_setNextAutoplayStep.
Qed.

Lemma singleSlot_run (story : Story) (es : list Event) (s : State) :
  singleSlot s -> singleSlot (run story es s).
Proof.
  revert s. induction es as [|e es IH]; intros s S; [exact S|].
  simpl. apply IH. now apply singleSlot_handle_event.
Qed.

Lemma initChapterNavigation_completes (story : Story) (s : State) :
  exists s', initChapterNavigation story s = Normal s' /\ sameTimer s s'
             /\ chapterIdParam s' = chapterIdParam s.
Proof.
  unfold initChapterNavigation.
  destruct (match getParams s with
            | Some p => find (fun chapter => String.eqb (id chapter) p)
                             (chapters story)
            | None => None
            end) as [c|];
    unfold andThen, activateNavigationElement, does;
    rewrite updateChapterContent_eq;
    (eexists; split; [reflexivity|]); repeat split.
Qed.

Lemma singleSlot_loaded (story : Story) (param : option string) :
  singleSlot (loaded story param).
Proof.
  unfold loaded.
  destruct (initChapterNavigation_completes story (pageLoad param))
    as (s' & -> & F & _).
  apply (singleSlot_sameTimer _ _ F). reflexivity.
Qed.

Lemma singleSlot_at_most_one (s : State) :
  singleSlot s -> (List.length (timers s) <= 1)%nat.
Proof.
  unfold singleSlot. destruct (intervalId s); intros ->; simpl; lia.
Qed.

(** C7. In every state the page reaches from its load, by any sequence of
    clicks and timer firings, at most one timer is live, and it is the one
    [intervalId] holds.  [autoplayClickHandler] is [stopAutoplay] when the
    handle is set, and only when the handle is null registers a new
    repeating timer of 3000 ms, keeps its handle and shows the pause icon.
    [stopAutoplay] always completes with the handle null, the timer it
    held cleared and the play icon shown; called when already stopped it
    leaves the timers as they were. *)
Theorem C7_single_autoplay_timer
  (story : Story) (param : option string) (es : list Event) (s : State) :
  (singleSlot (run story es (loaded story param))
   /\ (List.length (timers (run story es (loaded story param))) <= 1)%nat)
  /\ (forall h, intervalId s = Some h ->
        autoplayClickHandler s = stopAutoplay s)
  /\ (intervalId s = None ->
        exists s', autoplayClickHandler s = Normal s'
          /\ intervalId s' = Some (nextHandle s)
          /\ timers s'
             = {| handle := nextHandle s; period := 3000 |} :: timers s
          /\ autoplayIcon s' = PAUSE_ICON)
  /\ (exists s', stopAutoplay s = Normal s'
        /\ intervalId s' = None
        /\ autoplayIcon s' = PLAY_ICON
        /\ (forall h, intervalId s = Some h -> isLive h s' = false)
        /\ (singleSlot s -> timers s' = []))
  /\ (intervalId s = None ->
        stopAutoplay s
        = Normal (setIntervalId None (setAutoplayIcon PLAY_ICON s))
        /\ timers (outcome (stopAutoplay s)) = timers s).
Proof.
  split; [|split; [|split; [|split]]].
  - assert (S : singleSlot (run story es (loaded story param)))
      by (apply singleSlot_run, singleSlot_loaded).
    split; [exact S | now apply singleSlot_at_most_one].
  - intros h H. unfold autoplayClickHandler. now rewrite H.
  - intros H. unfold autoplayClickHandler. rewrite H.
    eexists. split; [reflexivity|]. repeat split.
  - destruct (stopAutoplay_completes s) as (s' & E & I & P & _ & L & T).
    exists s'. auto.
  - intros H. rewrite (stopAutoplay_when_stopped s H). split; reflexivity.
Qed.

Lemma C7_single_autoplay_timer_witness :
  intervalId (loaded storyABC None) = None
  /\ (exists s', autoplayClickHandler (loaded storyABC None) = Normal s'
                 /\ intervalId s' = Some 1%positive)
  /\ (List.length
        (timers (run storyABC [AutoplayClick; AutoplayClick; AutoplayClick]
                     (loaded storyABC None))) <= 1)%nat.
Proof.
  assert (N : intervalId (loaded storyABC None) = None) by reflexivity.
  split; [exact N|]. split.
  - destruct (C7_single_autoplay_timer storyABC None [] (loaded storyABC None))
      as (_ & _ & H & _).
    destruct (H N) as (s' & E & I & _). exists s'. split; [exact E|exact I].
  - exact (proj2 (proj1 (C7_single_autoplay_timer storyABC None
             [AutoplayClick; AutoplayClick; AutoplayClick]
             (loaded storyABC None)))).
Defined.

(** One firing moves the index by at most one and never out of the
    store. *)
Lemma tick_index (story : Story) (h : positive) (s : State) (i : nat) :
  idsArePositions story ->
  getCurrentChapterIndex s = JS.ofNat i ->
  (i < chapterCount story)%nat ->
  exists j, getCurrentChapterIndex (tick story h s) = JS.ofNat j
            /\ (i <= j <= i + 1)%nat /\ (j < chapterCount story)%nat.
Proof.
  intros W I R. unfold tick.
  destruct (isLive h s); [|exists i; repeat split; auto; lia].
  assert (K : forall s1 j, getCurrentChapterIndex s1 = JS.ofNat j ->
            getCurrentChapterIndex
              (outcome (if JS.strictEq (getCurrentChapterIndex s1)
                                       (JS.sub (JS.ofNat (chapterCount story))
                                               (JS.ofZ 1))
                        then stopAutoplay s1 else Normal s1))
            = JS.ofNat j).
  { intros s1 j H. destruct (JS.strictEq _ _); [|exact H].
    destruct (stopAutoplay_completes s1) as (s2 & -> & _ & _ & P & _).
    unfold getCurrentChapterIndex, getParams in *. simpl. now rewrite P. }
  unfold setNextAutoplayStep, andThen, setNextChapter.
  rewrite I, (JSFacts.arrayIndex_add1 _ _ (JSFacts.arrayIndex_ofNat i)).
  replace (JS.lt (JS.ofNat (S i)) (JS.ofNat (chapterCount story)))
    with (Z.of_nat (S i) <? Z.of_nat (chapterCount story))%Z
    by (symmetry; apply JSFacts.lt_ofZ).
  destruct (Z.ltb_spec (Z.of_nat (S i)) (Z.of_nat (chapterCount story)))
    as [L|L].
  - assert (R' : (S i < chapterCount story)%nat) by lia.
    destruct (chapterAt_in_range story (S i) R') as [c C].
    destruct (updateChapter_found story _ (S i) c s
                (chapterAt_ofNat story (S i) c C)) as (s1 & U & P & _).
    rewrite U.
    exists (S i). split; [|lia].
    apply K. unfold getCurrentChapterIndex, getParams. rewrite P.
    now apply W.
  - exists i. split; [|lia]. now apply K.
Qed.

Lemma ticks_index (story : Story) (h : positive) (n : nat) :
  idsArePositions story ->
  forall (s : State) (i : nat),
    getCurrentChapterIndex s = JS.ofNat i ->
    (i < chapterCount story)%nat ->
    exists j, getCurrentChapterIndex (ticks story h n s) = JS.ofNat j
              /\ (i <= j <= i + n)%nat /\ (j < chapterCount story)%nat.
Proof.
  intros W. induction n as [|n IH]; intros s i I R.
  - exists i. simpl. repeat split; auto; lia.
  - destruct (tick_index story h s i W I R) as (j & I' & B & R').
    destruct (IH (tick story h s) j I' R') as (k & I'' & B' & R'').
    exists k. simpl. repeat split; auto; lia.
Qed.

(** When a firing of the autoplay timer steps forward and the index then
    read is [chapterCount - 1], the step stops the timer at once: the
    handle is null, no timer is live and the play icon is back, so no later
    firing navigates; a firing at the last chapter leaves the persisted
    parameter as it was.  In a store whose ids are the positions, however
    many times the timer fires from chapter [i], the index never falls
    below [i] (nothing wraps to chapter 0) and never leaves the store
    (nothing continues past the last chapter). *)
Theorem autoplay_stops_at_read_last
  (story : Story) (h : positive) (s : State) :
  singleSlot s ->
  (forall s1, isLive h s = true ->
     setNextChapter story s = Normal s1 ->
     JS.strictEq (getCurrentChapterIndex s1) (lastIndex story) = true ->
     exists s', setNextAutoplayStep story s = Normal s'
       /\ tick story h s = s'
       /\ chapterIdParam s' = chapterIdParam s1
       /\ intervalId s' = None
       /\ timers s' = []
       /\ isLive h s' = false
       /\ autoplayIcon s' = PLAY_ICON
       /\ (forall n, ticks story h n s' = s')
       /\ (JS.strictEq (getCurrentChapterIndex s) (lastIndex story) = true ->
             chapterIdParam s' = chapterIdParam s))
  /\ (idsArePositions story ->
      forall i n, getCurrentChapterIndex s = JS.ofNat i ->
        (i < chapterCount story)%nat ->
        exists j, getCurrentChapterIndex (ticks story h n s) = JS.ofNat j
                  /\ (i <= j <= i + n)%nat /\ (j < chapterCount story)%nat).
Proof.
  intros S. split.
  - intros s1 L N E.
    pose proof (setNextChapter_sameTimer story s) as F. rewrite N in F.
    simpl in F. apply (singleSlot_sameTimer _ _ F) in S.
    destruct (stopAutoplay_completes s1) as (s' & St & I & Ic & P & _ & T).
    specialize (T S).
    assert (A : setNextAutoplayStep story s = Normal s').
    { unfold setNextAutoplayStep, andThen. rewrite N.
      unfold lastIndex in E. now rewrite E. }
    exists s'. split; [exact A|].
    split; [unfold tick; now rewrite L, A|].
    split; [exact P|]. split; [exact I|]. split; [exact T|].
    split; [unfold isLive; now rewrite T|].
    split; [exact Ic|]. split.
    + intros n. now apply ticks_without_timers.
    + intros E0. rewrite P.
      rewrite (setNextChapter_at_last story s E0) in N.
      now injection N as <-.
  - intros W i n I R. now apply ticks_index.
Qed.

Lemma autoplay_stops_at_read_last_witness :
  singleSlot playingAtB /\ isLive 1 playingAtB = true
  /\ chapterIdParam (tick storyABC 1 playingAtB) = Some "2"
  /\ intervalId (tick storyABC 1 playingAtB) = None
  /\ ticks storyABC 1 5 (tick storyABC 1 playingAtB)
     = tick storyABC 1 playingAtB.
Proof.
  assert (S : singleSlot playingAtB) by (vm_compute; reflexivity).
  assert (L : isLive 1 playingAtB = true) by (vm_compute; reflexivity).
  assert (N : setNextChapter storyABC playingAtB
              = Normal (outcome (setNextChapter storyABC playingAtB)))
    by (vm_compute; reflexivity).
  assert (E : JS.strictEq
                (getCurrentChapterIndex
                   (outcome (setNextChapter storyABC playingAtB)))
                (lastIndex storyABC) = true) by (vm_compute; reflexivity).
  destruct (proj1 (autoplay_stops_at_read_last storyABC 1 playingAtB S)
              _ L N E)
    as (s' & _ & T & P & I & _ & _ & _ & K & _).
  split; [exact S|]. split; [exact L|].
  rewrite T. split; [rewrite P; vm_compute; reflexivity|]. split; [exact I|].
  apply K.
Defined.

(** ** Manual navigation interrupts autoplay *)

(** With the parameter at 7 in a store of three chapters, the back click calls [updateChapter(6)], which throws before
    [stopAutoplay] is reached; the handle stays set and the timer live. *)
Lemma back_click_beyond_store :
  completes (backButtonClick storyABC playingBeyond) = false
  /\ isLive 1 (outcome (backButtonClick storyABC playingBeyond)) = true
  /\ ~ handleNullAfter (backButtonClick storyABC) playingBeyond.
Proof.
  split; [vm_compute; reflexivity|]. split; [vm_compute; reflexivity|].
  unfold handleNullAfter. vm_compute. discriminate.
Qed.

Lemma click_stops (story : Story) (nav : cmd) (s s1 : State) :
  sameTimer s (outcome (nav s)) ->
  nav s = Normal s1 ->
  exists s', (nav ;; stopAutoplay)%cmd s = Normal s'
             /\ chapterIdParam s' = chapterIdParam s1
             /\ autoplayStopped story s s'.
Proof.
  intros F N. rewrite N in F. simpl in F.
  destruct (stopAutoplay_completes s1) as (s' & E & I & Ic & P & L & T).
  exists s'. unfold andThen. rewrite N.
  split; [exact E|]. split; [exact P|].
  split; [exact I|]. split; [exact Ic|]. split.
  - intros h H. apply L. destruct F as (FI & _). now rewrite FI.
  - intros S. apply (singleSlot_sameTimer s s1 F) in S.
    specialize (T S). split; [exact T|].
    intros h n. now apply ticks_without_timers.
Qed.

(** A state whose index is a chapter position, or the intro state's 0, or
    [NaN], lets both steps complete. *)
Lemma steps_complete (story : Story) (s : State) :
  validIndex story (getCurrentChapterIndex s) = true
  \/ chapterIdParam s = None
  \/ getCurrentChapterIndex s = JS.NaN ->
  (exists s1, setNextChapter story s = Normal s1)
  /\ (exists s2, setPreviousChapter story s = Normal s2).
Proof.
  intros H.
  assert (U : forall i, (i < chapterCount story)%nat ->
            exists s1, updateChapter story (JS.ofNat i) s = Normal s1).
  { intros i R. destruct (chapterAt_in_range story i R) as [c C].
    destruct (updateChapter_found story _ i c s (chapterAt_ofNat story i c C))
      as (s1 & E & _). now exists s1. }
  assert (R0 : exists s2, resetToIntro story s = Normal s2).
  { destruct (resetToIntro_completes story s) as (s2 & E & _).
    now exists s2. }
  assert (G : forall i, JS.arrayIndex (getCurrentChapterIndex s) = Some i ->
            (i < chapterCount story)%nat ->
            (exists s1, setNextChapter story s = Normal s1)
            /\ (exists s2, setPreviousChapter story s = Normal s2)).
  { intros i A R. split.
    - unfold setNextChapter. rewrite (JSFacts.arrayIndex_add1 _ _ A).
      unfold JS.ofNat at 1 2. rewrite JSFacts.lt_ofZ.
      destruct (Z.ltb_spec (Z.of_nat (S i)) (Z.of_nat (chapterCount story)));
        [apply U; lia | now exists s].
    - unfold setPreviousChapter. rewrite (JSFacts.arrayIndex_sub1 _ _ A).
      rewrite JSFacts.ge_ofZ.
      destruct (Z.leb_spec 0 (Z.of_nat i - 1)); [|exact R0].
      replace (Z.of_nat i - 1)%Z with (Z.of_nat (i - 1)) by lia.
      apply (U (i - 1)%nat). lia. }
  destruct H as [V|[P|N]].
  - unfold validIndex in V.
    destruct (chapterAt story (getCurrentChapterIndex s)) as [[i c]|] eqn:E;
      [|discriminate].
    apply chapterAt_inv in E. destruct E as (A & _ & R). now apply (G i).
  - rewrite (getCurrentChapterIndex_absent s P) in G.
    destruct (Nat.eq_dec (chapterCount story) 0) as [Z0|NZ].
    + split.
      * unfold setNextChapter. rewrite (getCurrentChapterIndex_absent s P).
        rewrite JSFacts.add_ofZ. unfold JS.ofNat. rewrite JSFacts.lt_ofZ, Z0.
        simpl. now exists s.
      * unfold setPreviousChapter.
        rewrite (getCurrentChapterIndex_absent s P).
        rewrite JSFacts.sub_ofZ, JSFacts.ge_ofZ. simpl. exact R0.
    + apply (G 0%nat); [reflexivity | lia].
  - split.
    + unfold setNextChapter. rewrite N. simpl. now exists s.
    + unfold setPreviousChapter. rewrite N. simpl. exact R0.
Qed.

(** Every forward click and every back click whose
    navigation step completes stops the autoplay timer, whether or not
    autoplay was running: the click completes with the handle null, the
    play icon shown and the timer the handle named no longer live, so no
    later firing navigates.  The navigation step completes whenever the
    index read is a chapter position, the parameter is absent, or the
    parameter converts to no number. *)
Theorem completed_click_stops_autoplay (story : Story) (s : State) :
  (forall s1, setNextChapter story s = Normal s1 ->
     exists s', forwardButtonClick story s = Normal s'
                /\ chapterIdParam s' = chapterIdParam s1
                /\ autoplayStopped story s s')
  /\ (forall s1, setPreviousChapter story s = Normal s1 ->
        exists s', backButtonClick story s = Normal s'
                   /\ chapterIdParam s' = chapterIdParam s1
                   /\ autoplayStopped story s s')
  /\ (validIndex story (getCurrentChapterIndex s) = true
      \/ chapterIdParam s = None
      \/ getCurrentChapterIndex s = JS.NaN ->
      (exists s', forwardButtonClick story s = Normal s'
                  /\ autoplayStopped story s s')
      /\ (exists s', backButtonClick story s = Normal s'
                     /\ autoplayStopped story s s')).
Proof.
  assert (F : forall s1, setNextChapter story s = Normal s1 ->
     exists s', forwardButtonClick story s = Normal s'
                /\ chapterIdParam s' = chapterIdParam s1
                /\ autoplayStopped story s s').
  { intros s1 N. apply (click_stops story (setNextChapter story) s s1);
      [apply setNextChapter_sameTimer | exact N]. }
  assert (B : forall s1, setPreviousChapter story s = Normal s1 ->
     exists s', backButtonClick story s = Normal s'
                /\ chapterIdParam s' = chapterIdParam s1
                /\ autoplayStopped story s s').
  { intros s1 N. apply (click_stops story (setPreviousChapter story) s s1);
      [apply setPreviousChapter_sameTimer | exact N]. }
  split; [exact F|]. split; [exact B|].
  intros H. destruct (steps_complete story s H) as ((s1 & N1) & (s2 & N2)).
  split.
  - destruct (F s1 N1) as (s' & E & _ & A). now exists s'.
  - destruct (B s2 N2) as (s' & E & _ & A). now exists s'.
Qed.

Lemma completed_click_stops_autoplay_witness :
  validIndex storyABC (getCurrentChapterIndex playingAtB) = true
  /\ intervalId playingAtB = Some 1%positive
  /\ (exists s', forwardButtonClick storyABC playingAtB = Normal s'
                 /\ autoplayStopped storyABC playingAtB s')
  /\ (exists s', backButtonClick storyABC playingAtB = Normal s'
                 /\ autoplayStopped storyABC playingAtB s').
Proof.
  assert (V : validIndex storyABC (getCurrentChapterIndex playingAtB) = true)
    by (vm_compute; reflexivity).
  split; [exact V|]. split; [vm_compute; reflexivity|].
  exact (proj2 (proj2 (completed_click_stops_autoplay storyABC playingAtB))
               (or_introl V)).
Defined.

(** * The page as a whole *)

(** ** The states the functions leave, in closed form *)

Ltac run_commands :=
  unfold andThen, setParams, setSelectedMarker, activateNavigationElement,
    removeCustomRadiusShader, createCustomRadiusShader, performFlyTo, does.

Lemma updateChapter_eq (story : Story) (x : JS.number) (i : nat)
  (c : Chapter) (s : State) :
  chapterAt story x = Some (i, c) ->
  updateChapter story x s = Normal (chapterView story i c s).
Proof.
  intros H. unfold updateChapter. rewrite H. run_commands.
  rewrite updateChapterContent_eq. reflexivity.
Qed.

Lemma resetToIntro_eq (story : Story) (s : State) :
  resetToIntro story s = Normal (introView story s).
Proof.
  unfold resetToIntro. run_commands.
  rewrite updateChapterContent_eq. reflexivity.
Qed.

Lemma stopAutoplay_sameView (s : State) :
  sameView s (outcome (stopAutoplay s)).
Proof.
  unfold stopAutoplay, andThen, does, clearTimeout.
  destruct (intervalId s); repeat split.
Qed.

Lemma autoplayClickHandler_sameView (s : State) :
  sameView s (outcome (autoplayClickHandler s)).
Proof.
  unfold autoplayClickHandler.
  destruct (intervalId s) eqn:E.
  - apply stopAutoplay_sameView.
  - repeat split.
Qed.

(** A property kept by the five things a listener can do is kept by every
    run of events. *)
Lemma invariant_run (story : Story) (Inv : State -> Prop) :
  (forall s x, Inv s -> Inv (outcome (updateChapter story x s))) ->
  (forall s, Inv s -> Inv (outcome (resetToIntro story s))) ->
  (forall s, Inv s -> Inv (outcome (stopAutoplay s))) ->
  (forall s, Inv s -> Inv (outcome (autoplayClickHandler s))) ->
  (forall s, Inv s -> Inv (outcome (startButtonClick story s))) ->
  forall es s, Inv s -> Inv (run story es s).
Proof.
  intros U R P A B.
  assert (N : forall s, Inv s -> Inv (outcome (setNextChapter story s))).
  { intros s I. unfold setNextChapter. destruct (JS.lt _ _); auto. }
  assert (V : forall s, Inv s -> Inv (outcome (setPreviousChapter story s))).
  { intros s I. unfold setPreviousChapter. destruct (JS.ge _ _); auto. }
  assert (K : forall (nav : cmd) s,
            Inv (outcome (nav s)) ->
            Inv (outcome ((nav ;; stopAutoplay)%cmd s))).
  { intros nav s I. unfold andThen.
    destruct (nav s) as [s1|s1]; simpl in I; [apply P|]; exact I. }
  assert (T : forall s, Inv s -> Inv (outcome (setNextAutoplayStep story s))).
  { intros s I. unfold setNextAutoplayStep, andThen.
    specialize (N s I).
    destruct (setNextChapter story s) as [s1|s1]; simpl in N; [|exact N].
    destruct (JS.strictEq _ _); [apply P|]; exact N. }
  induction es as [|e es IH]; intros s I; [exact I|].
  simpl. apply IH. destruct e; simpl.
  - now apply B.
  - apply K. now apply N.
  - apply K. now apply V.
  - now apply A.
  - unfold tick. destruct (isLive h s); auto.
Qed.

Lemma updateChapter_cases (story : Story) (x : JS.number) (s : State) :
  (chapterAt story x = None /\ updateChapter story x s = Throw s)
  \/ (exists i c, chapterAt story x = Some (i, c)
                  /\ nth_error (chapters story) i = Some c
                  /\ updateChapter story x s
                     = Normal (chapterView story i c s)).
Proof.
  destruct (chapterAt story x) as [[i c]|] eqn:E.
  - right. exists i, c. split; [reflexivity|].
    split; [apply (chapterAt_inv story x i c E)|].
    now apply updateChapter_eq.
  - left. split; [reflexivity|]. now apply updateChapter_missing.
Qed.

Lemma startButtonClick_cases (story : Story) (s : State) :
  (chapters story = []
   /\ startButtonClick story s = Throw (setActive false true s))
  \/ (exists c, nth_error (chapters story) 0 = Some c
                /\ startButtonClick story s
                   = Normal (chapterView story 0 c (setActive false true s))).
Proof.
  unfold startButtonClick, andThen, activateNavigationElement, does.
  cbn [navEq].
  destruct (chapters story) as [|c l] eqn:E.
  - left. split; [reflexivity|].
    apply updateChapter_missing. unfold chapterAt.
    change (JS.ofZ 0) with (JS.ofNat 0).
    now rewrite JSFacts.arrayIndex_ofNat, E.
  - right. exists c. split; [reflexivity|].
    apply updateChapter_eq. change (JS.ofZ 0) with (JS.ofNat 0).
    apply chapterAt_ofNat. now rewrite E.
Qed.

Lemma initChapterNavigation_eq (story : Story) (s : State) :
  initChapterNavigation story s
  = Normal
      match chapterIdParam s with
      | Some p =>
          match find (fun chapter => String.eqb (id chapter) p)
                     (chapters story) with
          | Some c =>
              rendered story (chapterDetails c) false
                       (setActive false true s)
          | None =>
              rendered story (propertiesDetails (properties story)) true
                       (setActive true false s)
          end
      | None =>
          rendered story (propertiesDetails (properties story)) true
                   (setActive true false s)
      end.
Proof.
  unfold initChapterNavigation, getParams.
  destruct (chapterIdParam s) as [p|];
    [destruct (find _ (chapters story))|];
    unfold andThen, activateNavigationElement, does;
    rewrite updateChapterContent_eq; reflexivity.
Qed.

(** ** Invariants over every run of events *)

Lemma panesExclusive_run (story : Story) (es : list Event) (s : State) :
  panesExclusive s -> panesExclusive (run story es s).
Proof.
  apply invariant_run.
  - intros s0 x I.
    destruct (updateChapter_cases story x s0) as [(_ & ->)|(i & c & _ & _ & ->)];
      [exact I | reflexivity].
  - intros s0 _. rewrite resetToIntro_eq. reflexivity.
  - intros s0 I. destruct (stopAutoplay_sameView s0) as (_ & _ & _ & A & B & _).
    unfold panesExclusive. now rewrite A, B.
  - intros s0 I.
    destruct (autoplayClickHandler_sameView s0) as (_ & _ & _ & A & B & _).
    unfold panesExclusive. now rewrite A, B.
  - intros s0 _.
    destruct (startButtonClick_cases story s0) as [(_ & ->)|(c & _ & ->)];
      reflexivity.
Qed.

(** X1. After [initChapterNavigation], whatever the parameter the page was
    loaded with and whatever clicks and timer firings follow, completing
    or throwing, exactly one of the intro pane and the details pane is
    active. *)
Theorem X1_exactly_one_pane_active
  (story : Story) (param : option string) (es : list Event) :
  let s := run story es (loaded story param) in
  (introActive s = true /\ detailActive s = false)
  \/ (introActive s = false /\ detailActive s = true).
Proof.
  intros s.
  assert (P : panesExclusive s).
  { apply panesExclusive_run. unfold loaded.
    rewrite initChapterNavigation_eq. simpl.
    destruct param as [p|]; [destruct (find _ (chapters story))|];
      reflexivity. }
  unfold panesExclusive in P.
  destruct (detailActive s); simpl in P; [right|left]; auto.
Qed.

Lemma matchesChapter_find (story : Story) (p : string) :
  matchesChapter story p = true
  <-> exists c, find (fun chapter => String.eqb (id chapter) p)
                     (chapters story) = Some c.
Proof.
  unfold matchesChapter. split.
  - intros H. apply existsb_exists in H. destruct H as (c & I & E).
    destruct (find (fun chapter => String.eqb (id chapter) p)
                   (chapters story)) as [c'|] eqn:F.
    + now exists c'.
    + apply (find_none _ _ F) in I. simpl in I. congruence.
  - intros (c & F). apply find_some in F. destruct F as (I & E).
    apply existsb_exists. now exists c.
Qed.

(** X2. [initChapterNavigation] always completes and writes nothing but
    the panes and the rendered text: the parameter, the autoplay slot, the
    marker, the highlight and the camera are as before.  The details pane
    is the active one exactly when the parameter equals the id of some
    chapter, and then the text is that of the first such chapter; in every
    other case, an absent parameter included, the intro pane is active
    with the story's own text. *)
Theorem X2_init_resolves_parameter (story : Story) (s : State) :
  exists s', initChapterNavigation story s = Normal s'
    /\ chapterIdParam s' = chapterIdParam s
    /\ sameTimer s s'
    /\ selectedMarker s' = selectedMarker s
    /\ radiusShader s' = radiusShader s
    /\ camera s' = camera s
    /\ introActive s' = negb (detailActive s')
    /\ (detailActive s' = true
        <-> exists p, chapterIdParam s = Some p
                      /\ matchesChapter story p = true)
    /\ (forall p c, chapterIdParam s = Some p ->
          find (fun chapter => String.eqb (id chapter) p) (chapters story)
          = Some c ->
          detailContent s' = renderedContent story (chapterDetails c) false)
    /\ (detailActive s' = false ->
          detailContent s'
          = renderedContent story (propertiesDetails (properties story))
                            true).
Proof.
  rewrite initChapterNavigation_eq. eexists. split; [reflexivity|].
  destruct (chapterIdParam s) as [p|] eqn:P.
  - destruct (find (fun chapter => String.eqb (id chapter) p)
                   (chapters story)) as [c|] eqn:F.
    + do 6 (split; [try reflexivity; repeat split; assumption|]).
      split; [|split].
      * split; [|reflexivity]. intros _. exists p. split; [reflexivity|].
        apply matchesChapter_find. now exists c.
      * intros p' c' [= <-] F'. rewrite F in F'. now injection F' as <-.
      * discriminate.
    + do 6 (split; [try reflexivity; repeat split; assumption|]).
      split; [|split].
      * split; [discriminate|]. intros (p' & [= <-] & M).
        apply matchesChapter_find in M. destruct M as (c & M). congruence.
      * intros p' c' [= <-] F'. congruence.
      * reflexivity.
  - do 6 (split; [try reflexivity; repeat split; assumption|]).
    split; [|split].
    + split; [discriminate|]. intros (p' & D & _). discriminate D.
    + discriminate.
    + reflexivity.
Qed.

Lemma getCurrentChapterIndex_sameParam (s s' : State) :
  chapterIdParam s' = chapterIdParam s ->
  getCurrentChapterIndex s' = getCurrentChapterIndex s.
Proof. unfold getCurrentChapterIndex, getParams. now intros ->. Qed.

Lemma readoutFits_sameView (story : Story) (s s' : State) :
  sameView s s' -> readoutFits story s -> readoutFits story s'.
Proof.
  intros (P & F & D & _) (R1 & R2). unfold readoutFits.
  rewrite (getCurrentChapterIndex_sameParam s s' P). now rewrite F, D.
Qed.

Lemma readoutFits_rendered (story : Story) (d : Details) (b : bool)
  (s : State) :
  readoutFits story (rendered story d b s).
Proof. split; reflexivity. Qed.

Lemma readoutFits_run (story : Story) (es : list Event) (s : State) :
  readoutFits story s -> readoutFits story (run story es s).
Proof.
  apply invariant_run.
  - intros s0 x I.
    destruct (updateChapter_cases story x s0) as [(_ & ->)|(i & c & _ & _ & ->)];
      [exact I | split; reflexivity].
  - intros s0 _. rewrite resetToIntro_eq. split; reflexivity.
  - intros s0. apply readoutFits_sameView, stopAutoplay_sameView.
  - intros s0. apply readoutFits_sameView, autoplayClickHandler_sameView.
  - intros s0 I.
    destruct (startButtonClick_cases story s0) as [(_ & ->)|(c & _ & ->)];
      [exact I | split; reflexivity].
Qed.

(** X3. In every state the page reaches after [initChapterNavigation], by
    any clicks and timer firings, the index readout shows
    [index + 1 / chapterCount] for the index the persisted parameter reads
    as, and the forward control is disabled exactly when
    [index + 1 === chapterCount]: no listener changes the parameter
    without rendering again. *)
Theorem X3_readout_follows_parameter
  (story : Story) (param : option string) (es : list Event) :
  let s := run story es (loaded story param) in
  chapterIndexDisplay s
  = (JS.add (getCurrentChapterIndex s) (JS.ofZ 1), chapterCount story)
  /\ forwardDisabled s
     = JS.strictEq (JS.add (getCurrentChapterIndex s) (JS.ofZ 1))
                   (JS.ofNat (chapterCount story)).
Proof.
  apply readoutFits_run. unfold loaded.
  rewrite initChapterNavigation_eq. simpl.
  destruct param as [p|]; [destruct (find _ (chapters story))|];
    apply readoutFits_rendered.
Qed.

Lemma viewFits_sameView (story : Story) (s s' : State) :
  sameView s s' -> viewFits story s -> viewFits story s'.
Proof.
  intros (P & _ & _ & A & B & C & _) (V1 & V2). unfold viewFits.
  rewrite P, A, B, C. now split.
Qed.

Lemma viewFits_chapterView (story : Story) (i : nat) (c : Chapter)
  (s : State) :
  nth_error (chapters story) i = Some c ->
  viewFits story (chapterView story i c s).
Proof.
  intros H. split.
  - intros _. exists c. split; [now apply nth_error_In in H|].
    split; reflexivity.
  - discriminate.
Qed.

Lemma viewFits_run (story : Story) (es : list Event) (s : State) :
  chapters story <> [] ->
  viewFits story s -> viewFits story (run story es s).
Proof.
  intros N. apply invariant_run.
  - intros s0 x I.
    destruct (updateChapter_cases story x s0) as [(_ & ->)|(i & c & _ & H & ->)];
      [exact I | now apply viewFits_chapterView].
  - intros s0 _. rewrite resetToIntro_eq. split; [discriminate|reflexivity].
  - intros s0. apply viewFits_sameView, stopAutoplay_sameView.
  - intros s0. apply viewFits_sameView, autoplayClickHandler_sameView.
  - intros s0 _.
    destruct (startButtonClick_cases story s0) as [(E & _)|(c & H & ->)];
      [contradiction | now apply viewFits_chapterView].
Qed.

Lemma viewFits_loaded (story : Story) (param : option string) :
  viewFits story (loaded story param).
Proof.
  unfold loaded. rewrite initChapterNavigation_eq. simpl.
  destruct param as [p|].
  - destruct (find (fun chapter => String.eqb (id chapter) p)
                   (chapters story)) as [c|] eqn:F.
    + apply find_some in F. destruct F as (I & E).
      apply String.eqb_eq in E. split.
      * intros _. exists c. split; [exact I|]. split; [|reflexivity].
        simpl. now rewrite E.
      * discriminate.
    + split; [discriminate|reflexivity].
  - split; [discriminate|reflexivity].
Qed.

(** X4. In a store with at least one chapter, in every state the page
    reaches after [initChapterNavigation]: while the details pane is
    active the persisted parameter is the id of a chapter of the store and
    the text shown is that chapter's, and while the intro pane is active
    the text shown is the story's own. *)
Theorem X4_pane_text_and_parameter_agree
  (story : Story) (param : option string) (es : list Event) :
  chapters story <> [] ->
  let s := run story es (loaded story param) in
  (detailActive s = true ->
     exists c, In c (chapters story)
               /\ chapterIdParam s = Some (id c)
               /\ detailContent s
                  = renderedContent story (chapterDetails c) false)
  /\ (introActive s = true ->
        detailContent s
        = renderedContent story (propertiesDetails (properties story)) true).
Proof.
  intros N. apply (viewFits_run story es _ N), viewFits_loaded.
Qed.

Lemma X4_pane_text_witness :
  chapters storyABC <> []
  /\ exists c, In c (chapters storyABC)
               /\ chapterIdParam
                    (run storyABC [StartClick; ForwardClick]
                         (loaded storyABC None)) = Some (id c).
Proof.
  assert (N : chapters storyABC <> []) by discriminate.
  split; [exact N|].
  pose proof (X4_pane_text_and_parameter_agree storyABC None
                [StartClick; ForwardClick] N) as H.
  cbv zeta in H. destruct H as (H & _).
  assert (D : detailActive (run storyABC [StartClick; ForwardClick]
                                (loaded storyABC None)) = true)
    by (vm_compute; reflexivity).
  destruct (H D) as (c & I & P & _). exists c. split; [exact I|exact P].
Defined.

Lemma collaboratorsFit_sameView (story : Story) (s s' : State) :
  sameView s s' -> collaboratorsFit story s -> collaboratorsFit story s'.
Proof.
  intros (P & _ & _ & _ & _ & _ & M & R & C). unfold collaboratorsFit.
  now rewrite M, P, R, C.
Qed.

Lemma collaboratorsFit_chapterView (story : Story) (i : nat) (c : Chapter)
  (s : State) :
  nth_error (chapters story) i = Some c ->
  collaboratorsFit story (chapterView story i c s).
Proof.
  intros H. unfold collaboratorsFit. simpl. exists c. repeat split. exact H.
Qed.

Lemma collaboratorsFit_run (story : Story) (es : list Event) (s : State) :
  collaboratorsFit story s -> collaboratorsFit story (run story es s).
Proof.
  apply invariant_run.
  - intros s0 x I.
    destruct (updateChapter_cases story x s0) as [(_ & ->)|(i & c & _ & H & ->)];
      [exact I | now apply collaboratorsFit_chapterView].
  - intros s0 _. rewrite resetToIntro_eq. reflexivity.
  - intros s0. apply collaboratorsFit_sameView, stopAutoplay_sameView.
  - intros s0. apply collaboratorsFit_sameView, autoplayClickHandler_sameView.
  - intros s0 I.
    destruct (startButtonClick_cases story s0) as [(_ & ->)|(c & H & ->)];
      [exact I | now apply collaboratorsFit_chapterView].
Qed.

Lemma initChapterNavigation_collaborators (story : Story) (s : State) :
  let s' := outcome (initChapterNavigation story s) in
  chapterIdParam s' = chapterIdParam s
  /\ selectedMarker s' = selectedMarker s
  /\ radiusShader s' = radiusShader s
  /\ camera s' = camera s.
Proof.
  rewrite initChapterNavigation_eq. cbn [outcome].
  destruct (chapterIdParam s) as [p|] eqn:P;
    [destruct (find _ (chapters story))|];
    repeat split; assumption.
Qed.

(** X5. The marker, the highlight and the camera follow the parameter.
    From a state with no marker and no highlight, through
    [initChapterNavigation] and any clicks and timer firings: whenever a
    marker is selected it is the marker of the chapter whose id is
    persisted, the highlight lies on that chapter's coordinates with
    radius 250 and the last camera command flew there in 2 seconds; and
    whenever no marker is selected there is no highlight. *)
Theorem X5_marker_highlight_camera_follow
  (story : Story) (s0 : State) (es : list Event) :
  selectedMarker s0 = None ->
  radiusShader s0 = None ->
  let s := run story es (outcome (initChapterNavigation story s0)) in
  match selectedMarker s with
  | Some i =>
      exists c, nth_error (chapters story) i = Some c
                /\ chapterIdParam s = Some (id c)
                /\ radiusShader s = Some (coords c, 250%Z)
                /\ camera s
                   = Some {| flyCoords := coords c; flyDuration := 2;
                             flyRoll := 0;
                             flyPitch := pitch (cameraOptions c);
                             flyHeading := heading (cameraOptions c) |}
  | None => radiusShader s = None
  end.
Proof.
  intros M R. apply collaboratorsFit_run.
  destruct (initChapterNavigation_collaborators story s0) as (_ & M' & R' & _).
  unfold collaboratorsFit. now rewrite M', M, R'.
Qed.

Lemma X5_marker_highlight_witness :
  selectedMarker (pageLoad None) = None
  /\ radiusShader (pageLoad None) = None
  /\ exists c, nth_error (chapters storyABC) 1 = Some c
               /\ radiusShader (run storyABC [StartClick; ForwardClick]
                                    (loaded storyABC None))
                  = Some (coords c, 250%Z).
Proof.
  assert (M : selectedMarker (pageLoad None) = None) by reflexivity.
  assert (R : radiusShader (pageLoad None) = None) by reflexivity.
  split; [exact M|]. split; [exact R|].
  pose proof (X5_marker_highlight_camera_follow storyABC (pageLoad None)
                [StartClick; ForwardClick] M R) as H.
  cbv zeta in H. fold (loaded storyABC None) in H.
  assert (E : selectedMarker (run storyABC [StartClick; ForwardClick]
                                  (loaded storyABC None)) = Some 1%nat)
    by (vm_compute; reflexivity).
  rewrite E in H. destruct H as (c & C & _ & S & _).
  exists c. split; [exact C|exact S].
Defined.

Lemma iconFits_sameTimer (s s' : State) :
  sameTimer s s' -> iconFits s -> iconFits s'.
Proof.
  intros (I & _ & _ & A). unfold iconFits. now rewrite I, A.
Qed.

Lemma startButtonClick_sameTimer (story : Story) (s : State) :
  sameTimer s (outcome (startButtonClick story s)).
Proof.
  destruct (startButtonClick_cases story s) as [(_ & ->)|(c & _ & ->)];
    repeat split.
Qed.

Lemma iconFits_stopAutoplay (s : State) : iconFits (outcome (stopAutoplay s)).
Proof.
  destruct (stopAutoplay_completes s) as (s' & -> & I & A & _).
  unfold iconFits. simpl. now rewrite I.
Qed.

Lemma iconFits_run (story : Story) (es : list Event) (s : State) :
  iconFits s -> iconFits (run story es s).
Proof.
  apply invariant_run.
  - intros s0 x. apply iconFits_sameTimer, updateChapter_sameTimer.
  - intros s0. apply iconFits_sameTimer, resetToIntro_sameTimer.
  - intros s0 _. apply iconFits_stopAutoplay.
  - intros s0 _. unfold autoplayClickHandler.
    destruct (intervalId s0) eqn:E; [apply iconFits_stopAutoplay|].
    reflexivity.
  - intros s0. apply iconFits_sameTimer, startButtonClick_sameTimer.
Qed.

(** X6. The autoplay button tells the truth about the timer.  From a
    stopped state showing the play icon, through [initChapterNavigation]
    and any clicks and timer firings, the button shows the pause icon
    exactly while [intervalId] holds a handle, and the play icon exactly
    while it is null. *)
Theorem X6_icon_follows_handle
  (story : Story) (s0 : State) (es : list Event) :
  intervalId s0 = None ->
  autoplayIcon s0 = PLAY_ICON ->
  let s := run story es (outcome (initChapterNavigation story s0)) in
  (autoplayIcon s = PAUSE_ICON <-> exists h, intervalId s = Some h)
  /\ (autoplayIcon s = PLAY_ICON <-> intervalId s = None).
Proof.
  intros I A s.
  assert (F : iconFits s).
  { apply iconFits_run.
    destruct (initChapterNavigation_completes story s0) as (s' & -> & T & _).
    apply (iconFits_sameTimer s0 s' T). unfold iconFits. now rewrite I. }
  unfold iconFits in F. destruct (intervalId s) as [h|]; rewrite F.
  - split; split; intros H; try discriminate H; eauto.
  - split; split; intros H; try discriminate H; auto.
    destruct H as (h' & H). discriminate H.
Qed.

Lemma X6_icon_follows_handle_witness :
  intervalId (pageLoad None) = None
  /\ autoplayIcon (pageLoad None) = PLAY_ICON
  /\ autoplayIcon (run storyABC [StartClick; AutoplayClick]
                       (loaded storyABC None)) = PAUSE_ICON.
Proof.
  assert (I : intervalId (pageLoad None) = None) by reflexivity.
  assert (A : autoplayIcon (pageLoad None) = PLAY_ICON) by reflexivity.
  split; [exact I|]. split; [exact A|].
  pose proof (X6_icon_follows_handle storyABC (pageLoad None)
                [StartClick; AutoplayClick] I A) as H.
  cbv zeta in H. fold (loaded storyABC None) in H.
  destruct H as ((_ & H) & _). apply H.
  exists 1%positive. vm_compute. reflexivity.
Defined.

(** ** No listener throws from a known parameter *)

Lemma parameterKnown_index (story : Story) (s : State) :
  idsArePositions story ->
  parameterKnown story s ->
  validIndex story (getCurrentChapterIndex s) = true
  \/ chapterIdParam s = None
  \/ getCurrentChapterIndex s = JS.NaN.
Proof.
  intros W [P|(i & c & H & P)]; [now right; left|].
  left. unfold getCurrentChapterIndex, getParams. rewrite P, (W i c H).
  unfold validIndex. now rewrite (chapterAt_ofNat story i c H).
Qed.

Lemma parameterKnown_sameView (story : Story) (s s' : State) :
  sameView s s' -> parameterKnown story s -> parameterKnown story s'.
Proof.
  intros (P & _). unfold parameterKnown. now rewrite P.
Qed.

Lemma parameterKnown_event (story : Story) (e : Event) (s : State) :
  parameterKnown story s -> parameterKnown story (handle_event story e s).
Proof.
  intros K. change (handle_event story e s) with (run story [e] s).
  revert K. apply invariant_run.
  - intros s0 x I.
    destruct (updateChapter_cases story x s0) as [(_ & ->)|(i & c & _ & H & ->)];
      [exact I|]. right. now exists i, c.
  - intros s0 _. rewrite resetToIntro_eq. now left.
  - intros s0. apply parameterKnown_sameView, stopAutoplay_sameView.
  - intros s0. apply parameterKnown_sameView, autoplayClickHandler_sameView.
  - intros s0 I.
    destruct (startButtonClick_cases story s0) as [(_ & ->)|(c & H & ->)];
      [exact I|]. right. now exists 0%nat, c.
Qed.

Lemma stopAutoplay_after (nav : cmd) (s s1 : State) :
  nav s = Normal s1 -> completes ((nav ;; stopAutoplay)%cmd s) = true.
Proof.
  intros N. unfold andThen. rewrite N.
  destruct (stopAutoplay_completes s1) as (s' & -> & _). reflexivity.
Qed.

Lemma eventCompletes_known (story : Story) (e : Event) (s : State) :
  idsArePositions story ->
  chapters story <> [] ->
  parameterKnown story s ->
  eventCompletes story e s = true.
Proof.
  intros W N K.
  destruct (steps_complete story s (parameterKnown_index story s W K))
    as ((s1 & N1) & (s2 & N2)).
  destruct e; simpl.
  - destruct (startButtonClick_cases story s) as [(E & _)|(c & _ & ->)];
      [contradiction | reflexivity].
  - now apply (stopAutoplay_after _ s s1).
  - now apply (stopAutoplay_after _ s s2).
  - unfold autoplayButtonClick, autoplayClickHandler.
    destruct (intervalId s) eqn:E; [|reflexivity].
    destruct (stopAutoplay_completes s) as (s' & -> & _). reflexivity.
  - destruct (isLive h s); [|reflexivity].
    unfold setNextAutoplayStep, andThen. rewrite N1.
    destruct (JS.strictEq _ _); [|reflexivity].
    destruct (stopAutoplay_completes s1) as (s' & -> & _). reflexivity.
Qed.

Lemma allComplete_known (story : Story) (es : list Event) :
  idsArePositions story ->
  chapters story <> [] ->
  forall s, parameterKnown story s -> allComplete story es s = true.
Proof.
  intros W N. induction es as [|e es IH]; intros s K; [reflexivity|].
  simpl. rewrite (eventCompletes_known story e s W N K). simpl.
  apply IH. now apply parameterKnown_event.
Qed.

(** X7. In a store of at least one chapter whose ids are the positions,
    a page loaded without the parameter, or with a parameter equal to the
    id of a chapter, never sees a listener throw: whatever clicks and
    timer firings follow, every one of them runs to its end. *)
Theorem X7_known_parameter_never_throws
  (story : Story) (param : option string) (es : list Event) :
  idsArePositions story ->
  chapters story <> [] ->
  (param = None
   \/ exists p, param = Some p /\ matchesChapter story p = true) ->
  allComplete story es (loaded story param) = true.
Proof.
  intros W N H.
  assert (K : parameterKnown story (loaded story param)).
  { unfold loaded.
    destruct (initChapterNavigation_completes story (pageLoad param))
      as (s' & -> & _ & P).
    unfold parameterKnown. simpl. rewrite P. simpl.
    destruct H as [->|(p & -> & M)]; [now left|right].
    unfold matchesChapter in M. apply existsb_exists in M.
    destruct M as (c & I & E). apply String.eqb_eq in E.
    apply In_nth_error in I. destruct I as (i & I).
    exists i, c. split; [exact I|]. now rewrite E. }
  now apply allComplete_known.
Qed.

Lemma X7_known_parameter_witness :
  idsArePositions storyABC
  /\ chapters storyABC <> []
  /\ allComplete storyABC
       [BackClick; StartClick; AutoplayClick; TimerFires 1; TimerFires 1;
        ForwardClick; BackClick]
       (loaded storyABC (Some "2")) = true.
Proof.
  assert (N : chapters storyABC <> []) by discriminate.
  split; [exact idsArePositions_storyABC|]. split; [exact N|].
  apply (X7_known_parameter_never_throws storyABC (Some "2") _
           idsArePositions_storyABC N).
  right. exists "2". split; [reflexivity | vm_compute; reflexivity].
Defined.

(** From a parameter beyond the store the back click does throw. *)
Example unknown_parameter_throws :
  allComplete storyABC [BackClick] (loaded storyABC (Some "7")) = false.
Proof. vm_compute. reflexivity. Qed.

(** ** How navigation steps compose *)

Lemma chapterView_absorbs (story : Story) (i : nat) (c : Chapter)
  (s s' : State) :
  sameTimer s s' -> chapterView story i c s' = chapterView story i c s.
Proof.
  intros (I & T & N & A). destruct s, s'. simpl in *. subst.
  reflexivity.
Qed.

Lemma introView_absorbs (story : Story) (s s' : State) :
  sameTimer s s' -> introView story s' = introView story s.
Proof.
  intros (I & T & N & A). destruct s, s'. simpl in *. subst.
  reflexivity.
Qed.

Lemma chapterView_sameTimer (story : Story) (i : nat) (c : Chapter)
  (s : State) :
  sameTimer s (chapterView story i c s).
Proof. repeat split. Qed.

Lemma introView_sameTimer (story : Story) (s : State) :
  sameTimer s (introView story s).
Proof. repeat split. Qed.

Lemma sameTimer_trans (s1 s2 s3 : State) :
  sameTimer s1 s2 -> sameTimer s2 s3 -> sameTimer s1 s3.
Proof.
  intros (A & B & C & D) (A' & B' & C' & D'). unfold sameTimer.
  now rewrite A', B', C', D'.
Qed.

(** X8. A navigation step that completes overwrites every surface it
    owns: the state it leaves depends on the state before only through
    the autoplay slot.  So [updateChapter(y)] gives the same state whether
    it is called first or after any other completed [updateChapter] or
    [resetToIntro], calling it twice is calling it once, and the same
    holds for [resetToIntro]. *)
Theorem X8_last_navigation_wins
  (story : Story) (x y : JS.number) (s : State) :
  (forall s', sameTimer s s' -> validIndex story y = true ->
     updateChapter story y s' = updateChapter story y s)
  /\ (forall s', sameTimer s s' ->
        resetToIntro story s' = resetToIntro story s)
  /\ (validIndex story y = true ->
        updateChapter story y (outcome (updateChapter story x s))
        = updateChapter story y s
        /\ updateChapter story y (outcome (resetToIntro story s))
           = updateChapter story y s
        /\ updateChapter story y (outcome (updateChapter story y s))
           = updateChapter story y s)
  /\ resetToIntro story (outcome (updateChapter story x s))
     = resetToIntro story s
  /\ resetToIntro story (outcome (resetToIntro story s))
     = resetToIntro story s.
Proof.
  assert (U : forall s', sameTimer s s' -> validIndex story y = true ->
              updateChapter story y s' = updateChapter story y s).
  { intros s' T V. unfold validIndex in V.
    destruct (chapterAt story y) as [[i c]|] eqn:E; [|discriminate].
    rewrite !(updateChapter_eq story y i c _ E).
    now rewrite (chapterView_absorbs story i c s s' T). }
  assert (R : forall s', sameTimer s s' ->
              resetToIntro story s' = resetToIntro story s).
  { intros s' T. rewrite !resetToIntro_eq.
    now rewrite (introView_absorbs story s s' T). }
  split; [exact U|]. split; [exact R|].
  split; [intros V; repeat split; apply U; auto|split; apply R].
  - apply updateChapter_sameTimer.
  - apply resetToIntro_sameTimer.
  - apply updateChapter_sameTimer.
  - apply updateChapter_sameTimer.
  - apply resetToIntro_sameTimer.
Qed.

Lemma index_of_chapterView (story : Story) (i : nat) (c : Chapter)
  (s : State) :
  idsArePositions story ->
  nth_error (chapters story) i = Some c ->
  getCurrentChapterIndex (chapterView story i c s) = JS.ofNat i.
Proof. intros W H. exact (W i c H). Qed.

Lemma add1_ofNat (i : nat) :
  JS.add (JS.ofNat i) (JS.ofZ 1) = JS.ofNat (S i).
Proof. apply JSFacts.arrayIndex_add1, JSFacts.arrayIndex_ofNat. Qed.

Lemma sub1_ofNat (i : nat) :
  JS.sub (JS.ofNat (S i)) (JS.ofZ 1) = JS.ofNat i.
Proof.
  rewrite (JSFacts.arrayIndex_sub1 _ _ (JSFacts.arrayIndex_ofNat (S i))).
  unfold JS.ofNat. f_equal. lia.
Qed.

Lemma lt_ofNat (a b : nat) : JS.lt (JS.ofNat a) (JS.ofNat b) = (a <? b)%nat.
Proof.
  unfold JS.ofNat. rewrite JSFacts.lt_ofZ.
  destruct (Nat.ltb_spec a b), (Z.ltb_spec (Z.of_nat a) (Z.of_nat b));
    auto; lia.
Qed.

Lemma ge0_ofNat (a : nat) : JS.ge (JS.ofNat a) (JS.ofZ 0) = true.
Proof.
  unfold JS.ofNat. rewrite JSFacts.ge_ofZ. apply Z.leb_le. lia.
Qed.

(** The forward step at a known position. *)
Lemma setNextChapter_at (story : Story) (i : nat) (s : State) :
  getCurrentChapterIndex s = JS.ofNat i ->
  (forall c, nth_error (chapters story) (S i) = Some c ->
     setNextChapter story s = Normal (chapterView story (S i) c s))
  /\ ((chapterCount story <= S i)%nat -> setNextChapter story s = Normal s).
Proof.
  intros I. unfold setNextChapter. rewrite I, add1_ofNat, lt_ofNat. split.
  - intros c H.
    assert (R : (S i < chapterCount story)%nat)
      by (apply nth_error_Some; congruence).
    apply Nat.ltb_lt in R. rewrite R.
    apply updateChapter_eq. now apply chapterAt_ofNat.
  - intros R. apply Nat.ltb_ge in R. now rewrite R.
Qed.

(** The back step at a known position. *)
Lemma setPreviousChapter_at (story : Story) (i : nat) (s : State) :
  getCurrentChapterIndex s = JS.ofNat i ->
  match i with
  | O => setPreviousChapter story s = Normal (introView story s)
  | S j =>
      forall c, nth_error (chapters story) j = Some c ->
        setPreviousChapter story s = Normal (chapterView story j c s)
  end.
Proof.
  intros I. unfold setPreviousChapter. rewrite I. destruct i as [|j].
  - change (JS.ofNat 0) with (JS.ofZ 0).
    rewrite JSFacts.sub_ofZ, JSFacts.ge_ofZ. simpl. apply resetToIntro_eq.
  - rewrite sub1_ofNat, ge0_ofNat. intros c H.
    apply updateChapter_eq. now apply chapterAt_ofNat.
Qed.

(** X9. Back undoes forward, and forward undoes back.  In a store whose
    ids are the positions, from a state reading position [i]: when a
    chapter follows, [setNextChapter] then [setPreviousChapter] leaves
    exactly the state [updateChapter(i)] leaves; when a chapter precedes,
    [setPreviousChapter] then [setNextChapter] does.  From a state a
    completed [updateChapter(i)] left, either pair gives that very state
    back. *)
Theorem X9_forward_and_back_cancel
  (story : Story) (i : nat) (c : Chapter) (s : State) :
  idsArePositions story ->
  nth_error (chapters story) i = Some c ->
  getCurrentChapterIndex s = JS.ofNat i ->
  ((S i < chapterCount story)%nat ->
     (setNextChapter story ;; setPreviousChapter story)%cmd s
     = Normal (chapterView story i c s))
  /\ ((0 < i)%nat ->
        (setPreviousChapter story ;; setNextChapter story)%cmd s
        = Normal (chapterView story i c s))
  /\ (forall s0, s = chapterView story i c s0 ->
        chapterView story i c s = s).
Proof.
  intros W C I. split; [|split].
  - intros R. destruct (chapterAt_in_range story (S i) R) as [c' C'].
    unfold andThen.
    rewrite (proj1 (setNextChapter_at story i s I) c' C').
    pose proof (setPreviousChapter_at story (S i)
                  (chapterView story (S i) c' s)
                  (index_of_chapterView story (S i) c' s W C')) as P.
    simpl in P. rewrite (P c C).
    now rewrite (chapterView_absorbs story i c s _
                   (chapterView_sameTimer story (S i) c' s)).
  - intros R. destruct i as [|j]; [lia|].
    assert (R' : (j < chapterCount story)%nat).
    { assert (S j < chapterCount story)%nat
        by (apply nth_error_Some; congruence). lia. }
    destruct (chapterAt_in_range story j R') as [c' C'].
    unfold andThen.
    pose proof (setPreviousChapter_at story (S j) s I) as P. simpl in P.
    rewrite (P c' C').
    rewrite (proj1 (setNextChapter_at story j (chapterView story j c' s)
                      (index_of_chapterView story j c' s W C')) c C).
    now rewrite (chapterView_absorbs story (S j) c s _
                   (chapterView_sameTimer story j c' s)).
  - intros s0 ->.
    apply chapterView_absorbs, chapterView_sameTimer.
Qed.

Lemma X9_forward_and_back_witness :
  idsArePositions storyABC
  /\ getCurrentChapterIndex atChapterA = JS.ofNat 0
  /\ (setNextChapter storyABC ;; setPreviousChapter storyABC)%cmd atChapterA
     = Normal atChapterA.
Proof.
  assert (C : nth_error (chapters storyABC) 0
              = Some (sampleChapter "0" "A" 0)) by reflexivity.
  assert (I : getCurrentChapterIndex atChapterA = JS.ofNat 0)
    by (vm_compute; reflexivity).
  assert (R : (1 < chapterCount storyABC)%nat) by (vm_compute; lia).
  assert (E : Normal (chapterView storyABC 0 (sampleChapter "0" "A" 0)
                                  atChapterA)
              = Normal atChapterA) by (vm_compute; reflexivity).
  split; [exact idsArePositions_storyABC|]. split; [exact I|].
  pose proof (X9_forward_and_back_cancel storyABC 0 _ atChapterA
                idsArePositions_storyABC C I) as H.
  destruct H as (H & _).
  exact (eq_trans (H R) E).
Defined.

(** ** Walking the story *)

Lemma index_of_introView (story : Story) (s : State) :
  getCurrentChapterIndex (introView story s) = JS.ofNat 0.
Proof. reflexivity. Qed.

Lemma introState_introView (story : Story) (s : State) :
  introState (introView story s).
Proof. repeat split. Qed.

Lemma forward_steps (story : Story) (n : nat) :
  idsArePositions story ->
  forall (s : State) (i : nat),
    getCurrentChapterIndex s = JS.ofNat i ->
    (i < chapterCount story)%nat ->
    getCurrentChapterIndex (after (repeat (setNextChapter story) n) s)
    = JS.ofNat (Nat.min (i + n) (chapterCount story - 1)).
Proof.
  intros W. induction n as [|n IH]; intros s i I R.
  - simpl. rewrite I. f_equal. lia.
  - simpl. destruct (setNextChapter_at story i s I) as (F & L).
    destruct (Nat.lt_ge_cases (S i) (chapterCount story)) as [R'|R'].
    + destruct (chapterAt_in_range story (S i) R') as [c C].
      rewrite (F c C). simpl.
      rewrite (IH _ (S i) (index_of_chapterView story (S i) c s W C) R').
      f_equal. lia.
    + rewrite (L R'). simpl. rewrite (IH s i I R). f_equal. lia.
Qed.

Lemma back_from_first (story : Story) (m : nat) :
  forall s, getCurrentChapterIndex s = JS.ofNat 0 ->
    introState (after (repeat (setPreviousChapter story) (S m)) s).
Proof.
  induction m as [|m IH]; intros s I;
    pose proof (setPreviousChapter_at story 0 s I) as P; simpl in P.
  - simpl. rewrite P. apply introState_introView.
  - change (repeat (setPreviousChapter story) (S (S m)))
      with (setPreviousChapter story
              :: repeat (setPreviousChapter story) (S m)).
    cbn [after]. rewrite P. cbn [outcome].
    apply IH, index_of_introView.
Qed.

Lemma back_steps (story : Story) (n : nat) :
  idsArePositions story ->
  forall (s : State) (i : nat),
    getCurrentChapterIndex s = JS.ofNat i ->
    (i < chapterCount story)%nat ->
    let s' := after (repeat (setPreviousChapter story) n) s in
    ((n <= i)%nat -> getCurrentChapterIndex s' = JS.ofNat (i - n))
    /\ ((i < n)%nat -> introState s').
Proof.
  intros W. induction n as [|n IH]; intros s i I R.
  - simpl. split; [intros _; rewrite I; f_equal; lia | lia].
  - destruct i as [|j].
    + split; [lia|]. intros _. now apply back_from_first.
    + assert (R' : (j < chapterCount story)%nat) by lia.
      destruct (chapterAt_in_range story j R') as [c C].
      pose proof (setPreviousChapter_at story (S j) s I) as P. simpl in P.
      cbn [repeat after]. rewrite (P c C). cbn [outcome].
      destruct (IH _ j (index_of_chapterView story j c s W C) R') as (A & B).
      split; intros H; [apply A | apply B]; lia.
Qed.

(** X10. Walking a store whose ids are the positions.  From a state
    reading position [i], [n] calls of [setNextChapter] end at position
    [min (i + n) (chapterCount - 1)]: the walk stops at the last chapter
    and never wraps.  [n] calls of [setPreviousChapter] end at position
    [i - n] while [n <= i], and in the intro state, parameter cleared,
    once [n > i], where every further call stays. *)
Theorem X10_walking_forward_and_back
  (story : Story) (n i : nat) (s : State) :
  idsArePositions story ->
  getCurrentChapterIndex s = JS.ofNat i ->
  (i < chapterCount story)%nat ->
  getCurrentChapterIndex (after (repeat (setNextChapter story) n) s)
  = JS.ofNat (Nat.min (i + n) (chapterCount story - 1))
  /\ ((n <= i)%nat ->
        getCurrentChapterIndex
          (after (repeat (setPreviousChapter story) n) s)
        = JS.ofNat (i - n))
  /\ ((i < n)%nat ->
        introState (after (repeat (setPreviousChapter story) n) s)).
Proof.
  intros W I R. split; [now apply forward_steps|].
  now apply back_steps.
Qed.

Lemma X10_walking_witness :
  idsArePositions storyABC
  /\ getCurrentChapterIndex atChapterA = JS.ofNat 0
  /\ (0 < chapterCount storyABC)%nat
  /\ getCurrentChapterIndex
       (after (repeat (setNextChapter storyABC) 5) atChapterA)
     = JS.ofNat 2.
Proof.
  assert (I : getCurrentChapterIndex atChapterA = JS.ofNat 0)
    by (vm_compute; reflexivity).
  assert (R : (0 < chapterCount storyABC)%nat) by (vm_compute; lia).
  split; [exact idsArePositions_storyABC|]. split; [exact I|].
  split; [exact R|].
  exact (proj1 (X10_walking_forward_and_back storyABC 5 0 atChapterA
                  idsArePositions_storyABC I R)).
Defined.

(** ** The course of autoplay *)

Lemma strictEq_ofNat (a b : nat) :
  JS.strictEq (JS.ofNat a) (JS.ofNat b) = (a =? b)%nat.
Proof.
  unfold JS.ofNat. rewrite JSFacts.strictEq_ofZ.
  destruct (Nat.eqb_spec a b), (Z.eqb_spec (Z.of_nat a) (Z.of_nat b));
    auto; lia.
Qed.

Lemma lastIndex_ofNat (story : Story) :
  (0 < chapterCount story)%nat ->
  lastIndex story = JS.ofNat (chapterCount story - 1).
Proof.
  intros H. unfold lastIndex.
  destruct (chapterCount story) as [|m]; [lia|].
  rewrite sub1_ofNat. f_equal. lia.
Qed.

Lemma stopAutoplay_index (s : State) :
  getCurrentChapterIndex (outcome (stopAutoplay s))
  = getCurrentChapterIndex s.
Proof.
  apply getCurrentChapterIndex_sameParam.
  destruct (stopAutoplay_sameView s) as (P & _). exact P.
Qed.

(** One firing of the timer the module holds. *)
Lemma tick_held (story : Story) (h : positive) (s : State) (i : nat) :
  idsArePositions story ->
  singleSlot s ->
  intervalId s = Some h ->
  getCurrentChapterIndex s = JS.ofNat i ->
  (i < chapterCount story)%nat ->
  let s' := tick story h s in
  getCurrentChapterIndex s'
  = JS.ofNat (Nat.min (i + 1) (chapterCount story - 1))
  /\ singleSlot s'
  /\ intervalId s'
     = if (i + 1 <? chapterCount story - 1)%nat then Some h else None.
Proof.
  intros W Sl H I R.
  assert (L : isLive h s = true).
  { unfold isLive. unfold singleSlot in Sl. rewrite H in Sl. rewrite Sl.
    simpl. now rewrite Pos.eqb_refl. }
  assert (Stop : forall s1, sameTimer s s1 ->
            intervalId (outcome (stopAutoplay s1)) = None
            /\ singleSlot (outcome (stopAutoplay s1))).
  { intros s1 T. apply (singleSlot_sameTimer _ _ T) in Sl.
    split; [|now apply singleSlot_stopAutoplay].
    destruct (stopAutoplay_completes s1) as (s2 & -> & N & _). exact N. }
  unfold tick. rewrite L. unfold setNextAutoplayStep, andThen.
  fold (lastIndex story).
  rewrite (lastIndex_ofNat story) by lia.
  destruct (setNextChapter_at story i s I) as (F & E).
  destruct (Nat.lt_ge_cases (S i) (chapterCount story)) as [R'|R'].
  - destruct (chapterAt_in_range story (S i) R') as [c C].
    rewrite (F c C).
    pose proof (index_of_chapterView story (S i) c s W C) as I1.
    pose proof (chapterView_sameTimer story (S i) c s) as T.
    rewrite I1, strictEq_ofNat.
    destruct (Nat.eqb_spec (S i) (chapterCount story - 1)) as [Q|Q].
    + destruct (Stop _ T) as (N & S').
      rewrite stopAutoplay_index, I1.
      split; [f_equal; lia|]. split; [exact S'|].
      rewrite N. destruct (Nat.ltb_spec (i + 1) (chapterCount story - 1));
        [lia | reflexivity].
    + cbn [outcome]. rewrite I1.
      split; [f_equal; lia|].
      split; [now apply (singleSlot_sameTimer _ _ T Sl)|].
      destruct T as (T & _). rewrite T, H.
      destruct (Nat.ltb_spec (i + 1) (chapterCount story - 1));
        [reflexivity | lia].
  - rewrite (E R'), I, strictEq_ofNat.
    destruct (Nat.eqb_spec i (chapterCount story - 1)) as [Q|Q]; [|lia].
    destruct (Stop s (sameTimer_refl s)) as (N & S').
    rewrite stopAutoplay_index, I.
    split; [f_equal; lia|]. split; [exact S'|].
    rewrite N. destruct (Nat.ltb_spec (i + 1) (chapterCount story - 1));
      [lia | reflexivity].
Qed.

(** X11. The course of autoplay in a store whose ids are the positions.
    With the timer running from position [i], after [n] firings the page
    is at position [min (i + n) (chapterCount - 1)]; the timer is still
    the one held while no firing has reached the last chapter, and from
    the firing that reaches it (or the first one, when autoplay was
    started on the last chapter) the handle is null for good. *)
Theorem X11_autoplay_course
  (story : Story) (h : positive) (n i : nat) (s : State) :
  idsArePositions story ->
  singleSlot s ->
  intervalId s = Some h ->
  getCurrentChapterIndex s = JS.ofNat i ->
  (i < chapterCount story)%nat ->
  getCurrentChapterIndex (ticks story h n s)
  = JS.ofNat (Nat.min (i + n) (chapterCount story - 1))
  /\ intervalId (ticks story h n s)
     = if (n =? 0)%nat || (i + n <? chapterCount story - 1)%nat
       then Some h else None.
Proof.
  intros W. revert s i. induction n as [|n IH]; intros s i Sl H I R.
  - simpl. rewrite I, H. split; [f_equal; lia | reflexivity].
  - destruct (tick_held story h s i W Sl H I R) as (I' & S' & H').
    cbn [ticks].
    destruct (Nat.ltb_spec (i + 1) (chapterCount story - 1)) as [Q|Q].
    + assert (R' : (Nat.min (i + 1) (chapterCount story - 1)
                    < chapterCount story)%nat) by lia.
      destruct (IH _ _ S' H' I' R') as (A & B).
      rewrite A, B. split; [f_equal; lia|].
      destruct n as [|n]; simpl.
      * destruct (Nat.ltb_spec (i + 1) (chapterCount story - 1));
          [reflexivity | lia].
      * destruct (Nat.ltb_spec (Nat.min (i + 1) (chapterCount story - 1)
                                + S n) (chapterCount story - 1)),
                 (Nat.ltb_spec (i + S (S n)) (chapterCount story - 1));
          auto; lia.
    + assert (T : timers (tick story h s) = []).
      { unfold singleSlot in S'. now rewrite H' in S'. }
      rewrite (ticks_without_timers story h n _ T), I', H'.
      split; [f_equal; lia|]. simpl.
      destruct (Nat.ltb_spec (i + S n) (chapterCount story - 1));
        [lia | reflexivity].
Qed.

Lemma X11_autoplay_course_witness :
  idsArePositions storyABC
  /\ singleSlot playingAtB
  /\ intervalId playingAtB = Some 1%positive
  /\ getCurrentChapterIndex playingAtB = JS.ofNat 1
  /\ intervalId (ticks storyABC 1 4 playingAtB) = None.
Proof.
  assert (S : singleSlot playingAtB) by (vm_compute; reflexivity).
  assert (H : intervalId playingAtB = Some 1%positive)
    by (vm_compute; reflexivity).
  assert (I : getCurrentChapterIndex playingAtB = JS.ofNat 1)
    by (vm_compute; reflexivity).
  assert (R : (1 < chapterCount storyABC)%nat) by (vm_compute; lia).
  split; [exact idsArePositions_storyABC|]. split; [exact S|].
  split; [exact H|]. split; [exact I|].
  exact (proj2 (X11_autoplay_course storyABC 1 4 1 playingAtB
                  idsArePositions_storyABC S H I R)).
Defined.

(** ** Starting, failing, and what is left alone *)

(** X12. The start click repairs any parameter.  In a store of at least
    one chapter it completes from every state, whatever the parameter
    reads as, at the first chapter: details pane active, that chapter's id
    persisted, its marker selected; and when the ids are the positions no
    listener throws in any run of events after it.  In an empty store it
    throws, having already switched to the details pane and written
    nothing else. *)
Theorem X12_start_click_recovers
  (story : Story) (es : list Event) (s : State) :
  (chapters story = [] ->
     startButtonClick story s = Throw (setActive false true s))
  /\ (forall c, nth_error (chapters story) 0 = Some c ->
        startButtonClick story s
        = Normal (chapterView story 0 c (setActive false true s))
        /\ chapterIdParam (handle_event story StartClick s) = Some (id c)
        /\ selectedMarker (handle_event story StartClick s) = Some 0%nat
        /\ detailActive (handle_event story StartClick s) = true
        /\ introActive (handle_event story StartClick s) = false
        /\ (idsArePositions story ->
              allComplete story (StartClick :: es) s = true)).
Proof.
  split.
  - intros E.
    destruct (startButtonClick_cases story s) as [(_ & H)|(c & C & _)];
      [exact H|]. rewrite E in C. discriminate C.
  - intros c C.
    destruct (startButtonClick_cases story s) as [(E & _)|(c' & C' & H)];
      [rewrite E in C; discriminate C|].
    rewrite C in C'. injection C' as <-.
    split; [exact H|]. cbn [handle_event]. rewrite H. cbn [outcome].
    do 4 (split; [reflexivity|]).
    intros W. cbn [allComplete eventCompletes handle_event].
    rewrite H. cbn [completes outcome andb].
    apply allComplete_known; [exact W| |].
    + intros E. rewrite E in C. discriminate C.
    + right. now exists 0%nat, c.
Qed.

Lemma X12_start_click_witness :
  allComplete storyABC [StartClick; BackClick; BackClick; ForwardClick]
              (loaded storyABC (Some "7")) = true
  /\ allComplete storyABC [BackClick] (loaded storyABC (Some "7")) = false.
Proof.
  split; [|vm_compute; reflexivity].
  refine (proj2 (proj2 (proj2 (proj2 (proj2
    (proj2 (X12_start_click_recovers storyABC
              [BackClick; BackClick; ForwardClick]
              (loaded storyABC (Some "7")))
           (sampleChapter "0" "A" 0) eq_refl))))) idsArePositions_storyABC).
Defined.

Lemma completes_click (nav : cmd) (s : State) :
  completes ((nav ;; stopAutoplay)%cmd s) = completes (nav s).
Proof.
  unfold andThen. destruct (nav s) as [s1|s1]; [|reflexivity].
  destruct (stopAutoplay_completes s1) as (s' & -> & _). reflexivity.
Qed.

Lemma throwing_update_writes_nothing (story : Story) (x : JS.number)
  (s : State) :
  completes (updateChapter story x s) = false ->
  validIndex story x = false /\ updateChapter story x s = Throw s.
Proof.
  intros H. unfold validIndex.
  destruct (updateChapter_cases story x s) as [(E & U)|(i & c & _ & _ & U)].
  - now rewrite E.
  - rewrite U in H. discriminate H.
Qed.

(** X13. A listener that throws has written nothing.  The forward click
    throws exactly when [index + 1 < chapterCount] holds and [index + 1]
    is no chapter position, the back click exactly when [index - 1 >= 0]
    holds and [index - 1] is no chapter position, the autoplay click
    never; and when the forward click, the back click or a timer firing
    throws, the state is the one before, the autoplay slot included. *)
Theorem X13_throwing_listener_writes_nothing (story : Story) (s : State) :
  let next := JS.add (getCurrentChapterIndex s) (JS.ofZ 1) in
  let prev := JS.sub (getCurrentChapterIndex s) (JS.ofZ 1) in
  (eventCompletes story ForwardClick s = false
   <-> JS.lt next (JS.ofNat (chapterCount story)) = true
       /\ validIndex story next = false)
  /\ (eventCompletes story BackClick s = false
      <-> JS.ge prev (JS.ofZ 0) = true /\ validIndex story prev = false)
  /\ eventCompletes story AutoplayClick s = true
  /\ (forall e, e <> StartClick ->
        eventCompletes story e s = false -> handle_event story e s = s).
Proof.
  intros next prev.
  assert (V : forall x, validIndex story x = false ->
              updateChapter story x s = Throw s).
  { intros x H. apply updateChapter_missing. unfold validIndex in H.
    destruct (chapterAt story x); [discriminate H | reflexivity]. }
  assert (F : completes (setNextChapter story s) = false
              <-> JS.lt next (JS.ofNat (chapterCount story)) = true
                  /\ validIndex story next = false).
  { unfold setNextChapter. fold next.
    destruct (JS.lt next (JS.ofNat (chapterCount story))).
    - split.
      + intros H. now apply throwing_update_writes_nothing in H.
      + intros (_ & H). now rewrite (V _ H).
    - split; [discriminate | intros (H & _); discriminate H]. }
  assert (B : completes (setPreviousChapter story s) = false
              <-> JS.ge prev (JS.ofZ 0) = true
                  /\ validIndex story prev = false).
  { unfold setPreviousChapter. fold prev.
    destruct (JS.ge prev (JS.ofZ 0)).
    - split.
      + intros H. now apply throwing_update_writes_nothing in H.
      + intros (_ & H). now rewrite (V _ H).
    - rewrite resetToIntro_eq.
      split; [discriminate | intros (H & _); discriminate H]. }
  assert (A : eventCompletes story AutoplayClick s = true).
  { simpl. unfold autoplayButtonClick, autoplayClickHandler.
    destruct (intervalId s); [|reflexivity].
    destruct (stopAutoplay_completes s) as (s' & -> & _). reflexivity. }
  assert (FS : completes (setNextChapter story s) = false ->
               setNextChapter story s = Throw s).
  { intros H. apply F in H. destruct H as (L & H).
    unfold setNextChapter. fold next. rewrite L. now apply V. }
  assert (BS : completes (setPreviousChapter story s) = false ->
               setPreviousChapter story s = Throw s).
  { intros H. apply B in H. destruct H as (L & H).
    unfold setPreviousChapter. fold prev. rewrite L. now apply V. }
  split; [|split; [|split; [exact A|]]].
  - simpl. unfold forwardButtonClick. now rewrite completes_click.
  - simpl. unfold backButtonClick. now rewrite completes_click.
  - intros e N H. destruct e; simpl in *.
    + contradiction.
    + unfold forwardButtonClick in *. rewrite completes_click in H.
      unfold andThen. now rewrite (FS H).
    + unfold backButtonClick in *. rewrite completes_click in H.
      unfold andThen. now rewrite (BS H).
    + rewrite A in H. discriminate H.
    + unfold tick. destruct (isLive h s); [|discriminate H].
      unfold setNextAutoplayStep, andThen in *.
      destruct (setNextChapter story s) as [s1|s1] eqn:E.
      * destruct (JS.strictEq _ _); [|discriminate H].
        destruct (stopAutoplay_completes s1) as (s' & St & _).
        rewrite St in H. discriminate H.
      * pose proof (FS eq_refl) as E'. injection E' as ->. reflexivity.
Qed.

(** X14. Navigation and autoplay leave each other's state alone.
    [updateChapter], [resetToIntro], [setNextChapter],
    [setPreviousChapter], the start click and [initChapterNavigation],
    completing or throwing, never change the handle, the live timers or
    the autoplay icon; [stopAutoplay] and [autoplayClickHandler] never
    change the parameter, the panes, the text, the readout, the forward
    control, the marker, the highlight or the camera. *)
Theorem X14_navigation_and_autoplay_independent
  (story : Story) (x : JS.number) (s : State) :
  sameTimer s (outcome (updateChapter story x s))
  /\ sameTimer s (outcome (resetToIntro story s))
  /\ sameTimer s (outcome (setNextChapter story s))
  /\ sameTimer s (outcome (setPreviousChapter story s))
  /\ sameTimer s (outcome (startButtonClick story s))
  /\ sameTimer s (outcome (initChapterNavigation story s))
  /\ sameView s (outcome (stopAutoplay s))
  /\ sameView s (outcome (autoplayClickHandler s)).
Proof.
  split; [apply updateChapter_sameTimer|].
  split; [apply resetToIntro_sameTimer|].
  split; [apply setNextChapter_sameTimer|].
  split; [apply setPreviousChapter_sameTimer|].
  split; [apply startButtonClick_sameTimer|].
  split; [|split;
           [apply stopAutoplay_sameView|apply autoplayClickHandler_sameView]].
  destruct (initChapterNavigation_completes story s) as (s' & -> & T & _).
  exact T.
Qed.

(** * The title-keyed module *)
Module LegacyFacts.
Import Legacy.
Local Open Scope Z_scope.

Lemma findIndex_range {A : Type} (test : A -> bool) (l : list A) :
  -1 <= findIndex test l < Z.of_nat (List.length l).
Proof.
  induction l as [|x r IH]; simpl; [lia|].
  destruct (test x); [lia|].
  destruct (Z.ltb_spec (findIndex test r) 0); lia.
Qed.

Lemma findIndex_none {A : Type} (test : A -> bool) (l : list A) :
  findIndex test l = -1 <-> forall x, In x l -> test x = false.
Proof.
  induction l as [|x r IH]; simpl.
  - split; [intros _ y [] | reflexivity].
  - destruct (test x) eqn:T.
    + split; [discriminate|]. intros H. rewrite (H x) in T by now left.
      discriminate T.
    + pose proof (findIndex_range test r) as R.
      destruct (Z.ltb_spec (findIndex test r) 0) as [L|L].
      * split; [|reflexivity]. intros _ y [<-|I]; [exact T|].
        apply IH; [lia | exact I].
      * split; [lia|]. intros H.
        assert (findIndex test r = -1) by (apply IH; intros y I; apply H; now right).
        lia.
Qed.

(** A found index is the first position that passes the test. *)
Lemma findIndex_first {A : Type} (test : A -> bool) (l : list A) :
  0 <= findIndex test l ->
  exists x, nth_error l (Z.to_nat (findIndex test l)) = Some x
            /\ test x = true
            /\ forall j y, (j < Z.to_nat (findIndex test l))%nat ->
                 nth_error l j = Some y -> test y = false.
Proof.
  induction l as [|x r IH]; simpl; [lia|].
  destruct (test x) eqn:T.
  - intros _. exists x. simpl. repeat split; auto. intros j y H. lia.
  - destruct (Z.ltb_spec (findIndex test r) 0) as [L|L]; [lia|].
    intros _. destruct (IH L) as (y & N & P & F).
    exists y. replace (Z.to_nat (findIndex test r + 1))
      with (S (Z.to_nat (findIndex test r))) by lia.
    simpl. repeat split; auto.
    intros [|j] z H E; simpl in E.
    + now injection E as <-.
    + apply (F j z); [lia | exact E].
Qed.

(** An element that passes the test bounds the index from above. *)
Lemma findIndex_le {A : Type} (test : A -> bool) (l : list A) (i : nat)
  (x : A) :
  nth_error l i = Some x -> test x = true ->
  0 <= findIndex test l <= Z.of_nat i.
Proof.
  revert i. induction l as [|y r IH]; intros [|i] H T; simpl in *;
    try discriminate.
  - injection H as ->. rewrite T. lia.
  - destruct (test y); [lia|].
    specialize (IH i H T).
    destruct (Z.ltb_spec (findIndex test r) 0); lia.
Qed.

Lemma titleChapterAt_ofNat (story : Story) (i : nat) :
  chapterAt story (Z.of_nat i) = nth_error (chapters story) i.
Proof.
  unfold chapterAt. destruct (Z.ltb_spec (Z.of_nat i) 0); [lia|].
  now rewrite Nat2Z.id.
Qed.

Lemma titleIs_true (p : option string) (c : Chapter) :
  titleIs p c = true <-> p = Some (chapterTitle c).
Proof.
  unfold titleIs. destruct p as [t|]; [|split; discriminate].
  rewrite String.eqb_eq. split; [now intros -> | now intros [= ->]].
Qed.

(** X15. Whatever the parameter holds, the index the title-keyed module
    reads is -1 or the position of a chapter: it is -1 exactly when no
    chapter's title equals the parameter (an absent parameter included),
    and otherwise it is the first position whose chapter has the
    parameter as its title. *)
Theorem X15_title_index_is_none_or_position (story : Story) (s : State) :
  let k := getCurrentChapterIndex story s in
  -1 <= k < Z.of_nat (chapterCount story)
  /\ (k = -1 <->
      forall c, In c (chapters story) ->
                chapterParam s <> Some (chapterTitle c))
  /\ (chapterParam s = None -> k = -1)
  /\ (0 <= k ->
        exists c, chapterAt story k = Some c
                  /\ chapterParam s = Some (chapterTitle c)
                  /\ forall j c', (j < Z.to_nat k)%nat ->
                       nth_error (chapters story) j = Some c' ->
                       chapterParam s <> Some (chapterTitle c')).
Proof.
  intros k. unfold k, getCurrentChapterIndex.
  split; [apply findIndex_range|]. split; [|split].
  - rewrite findIndex_none. split; intros H c I.
    + intros E. apply titleIs_true in E. rewrite (H c I) in E.
      discriminate E.
    + destruct (titleIs (chapterParam s) c) eqn:T; [|reflexivity].
      apply titleIs_true in T. now apply H in I.
  - intros N. apply findIndex_none. intros c _. now rewrite N.
  - intros P. destruct (findIndex_first _ _ P) as (c & N & T & F).
    exists c. split.
    + unfold chapterAt.
      destruct (Z.ltb_spec
                  (findIndex (titleIs (chapterParam s)) (chapters story)) 0);
        [lia | exact N].
    + split; [now apply titleIs_true|].
      intros j c' L E Q. apply titleIs_true in Q.
      rewrite (F j c' L E) in Q. discriminate Q.
Qed.

Lemma updateChapter_in_range (story : Story) (z : Z) (s : State) :
  0 <= z < Z.of_nat (chapterCount story) ->
  completes (updateChapter story z s) = true.
Proof.
  intros R. unfold updateChapter, chapterAt.
  destruct (Z.ltb_spec z 0); [lia|].
  destruct (nth_error (chapters story) (Z.to_nat z)) eqn:E; [reflexivity|].
  apply nth_error_None in E. unfold chapterCount in R. lia.
Qed.

(** X16. The title-keyed steps never throw.  From every state of every
    store, the empty one included, [setNextChapter] and
    [setPreviousChapter] complete.  With no chapter matching the
    parameter the index is -1: the forward step then goes to the first
    chapter when there is one, and the back step resets to the intro. *)
Theorem X16_title_steps_never_throw (story : Story) (s : State) :
  completes (setNextChapter story s) = true
  /\ completes (setPreviousChapter story s) = true
  /\ (getCurrentChapterIndex story s = -1 ->
        setPreviousChapter story s = Normal (resetToIntro story s)
        /\ (chapters story = [] -> setNextChapter story s = Normal s)
        /\ (forall c, nth_error (chapters story) 0 = Some c ->
              setNextChapter story s = updateChapter story 0 s
              /\ chapterParam (outcome (setNextChapter story s))
                 = Some (chapterTitle c))).
Proof.
  pose proof (findIndex_range (titleIs (chapterParam s)) (chapters story))
    as R. fold (chapterCount story) in R.
  fold (getCurrentChapterIndex story s) in R.
  split; [|split].
  - unfold setNextChapter.
    destruct (Z.ltb_spec (getCurrentChapterIndex story s + 1)
                         (Z.of_nat (chapterCount story)));
      [apply updateChapter_in_range; lia | reflexivity].
  - unfold setPreviousChapter.
    destruct (Z.leb_spec 0 (getCurrentChapterIndex story s - 1));
      [apply updateChapter_in_range; lia | reflexivity].
  - intros K. split; [|split].
    + unfold setPreviousChapter. now rewrite K.
    + intros E. unfold setNextChapter, chapterCount. now rewrite K, E.
    + intros c C.
      assert (L : (0 < chapterCount story)%nat).
      { unfold chapterCount. destruct (chapters story); [discriminate C|].
        simpl. lia. }
      assert (N : setNextChapter story s = updateChapter story 0 s).
      { unfold setNextChapter. rewrite K. simpl.
        destruct (Z.ltb_spec 0 (Z.of_nat (chapterCount story)));
          [reflexivity | lia]. }
      split; [exact N|]. rewrite N.
      unfold updateChapter. change 0 with (Z.of_nat 0).
      rewrite titleChapterAt_ofNat, C. reflexivity.
Qed.

(** X17. Going to a chapter and reading the index in the title-keyed
    module.  For every valid position [i], [updateChapter(i)] completes
    with the chapter's title persisted, and the index read afterwards is
    the first position carrying that title: never beyond [i], equal to
    [i] exactly when no earlier chapter has the same title, and so always
    [i] when the titles are pairwise distinct.  The readout and the
    forward control are those of the index read. *)
Theorem X17_title_go_then_read
  (story : Story) (i : nat) (c : Chapter) (s : State) :
  nth_error (chapters story) i = Some c ->
  let s' := outcome (updateChapter story (Z.of_nat i) s) in
  let k := getCurrentChapterIndex story s' in
  completes (updateChapter story (Z.of_nat i) s) = true
  /\ chapterParam s' = Some (chapterTitle c)
  /\ 0 <= k <= Z.of_nat i
  /\ (k = Z.of_nat i <->
      forall j c', (j < i)%nat -> nth_error (chapters story) j = Some c' ->
                   chapterTitle c' <> chapterTitle c)
  /\ (NoDup (map chapterTitle (chapters story)) -> k = Z.of_nat i)
  /\ chapterIndexDisplay s' = (k + 1, chapterCount story)
  /\ forwardDisabled s' = (k + 1 =? Z.of_nat (chapterCount story)).
Proof.
  intros C s' k.
  assert (U : updateChapter story (Z.of_nat i) s
              = Normal (setCamera (Some (coords c, 2))
                          (updateChapterContent story (chapterDetails c) false
                             (setChapterParam (Some (chapterTitle c)) s)))).
  { unfold updateChapter. now rewrite titleChapterAt_ofNat, C. }
  assert (P : chapterParam s' = Some (chapterTitle c)).
  { unfold s'. rewrite U. reflexivity. }
  assert (T : titleIs (chapterParam s') c = true) by now apply titleIs_true.
  assert (B : 0 <= k <= Z.of_nat i)
    by (apply (findIndex_le _ _ i c C T)).
  assert (Q : k = Z.of_nat i <->
      forall j c', (j < i)%nat -> nth_error (chapters story) j = Some c' ->
                   chapterTitle c' <> chapterTitle c).
  { destruct (findIndex_first (titleIs (chapterParam s')) (chapters story)
                (proj1 B)) as (x & N & X & F).
    fold (getCurrentChapterIndex story s') in N, F. fold k in N, F.
    split.
    - intros E j c' L H D.
      assert (J : (j < Z.to_nat k)%nat) by lia.
      pose proof (F j c' J H) as G.
      assert (titleIs (chapterParam s') c' = true)
        by (apply titleIs_true; now rewrite P, D).
      congruence.
    - intros H. destruct (Z.eq_dec k (Z.of_nat i)) as [E|E]; [exact E|].
      assert (J : (Z.to_nat k < i)%nat) by lia.
      apply titleIs_true in X. rewrite P in X. injection X as X.
      exfalso. apply (H (Z.to_nat k) x J N). now symmetry. }
  split; [now rewrite U|]. split; [exact P|]. split; [exact B|].
  split; [exact Q|]. split.
  - intros D. apply Q. intros j c' L H E.
    assert (I : (j < List.length (map chapterTitle (chapters story)))%nat).
    { rewrite length_map. apply nth_error_Some. congruence. }
    pose proof (proj1 (NoDup_nth_error _) D j i I) as K.
    rewrite !nth_error_map, H, C in K. simpl in K.
    rewrite E in K. specialize (K eq_refl). lia.
  - unfold k, s'. rewrite U. split; reflexivity.
Qed.

Lemma X17_title_go_then_read_witness :
  nth_error (chapters storyABA) 2 = Some (sampleChapter "2" "A" 2)
  /\ 0 <= getCurrentChapterIndex storyABA
            (outcome (updateChapter storyABA 2 (pageLoad None))) <= 2.
Proof.
  assert (C : nth_error (chapters storyABA) 2
              = Some (sampleChapter "2" "A" 2)) by reflexivity.
  split; [exact C|].
  exact (proj1 (proj2 (proj2
           (X17_title_go_then_read storyABA 2 _ (pageLoad None) C)))).
Defined.

(** With the title A on the first and the third chapter, the third reads
    as the first, and the forward step from it goes to the second. *)
Example title_walk_ABA :
  let atThird := outcome (updateChapter storyABA 2 (pageLoad None)) in
  getCurrentChapterIndex storyABA atThird = 0
  /\ chapterParam (outcome (setNextChapter storyABA atThird)) = Some "B"%string
  /\ getCurrentChapterIndex storyABA
       (after [setNextChapter storyABA; setNextChapter storyABA;
               setNextChapter storyABA] (pageLoad None)) = 0.
Proof. vm_compute. repeat split. Qed.

End LegacyFacts.

(** * The index read is the persisted id converted, not a resolved position *)

Lemma matchesChapter_member (story : Story) (i : nat) (c : Chapter) :
  nth_error (chapters story) i = Some c ->
  matchesChapter story (id c) = true.
Proof.
  intros H. unfold matchesChapter. apply existsb_exists.
  exists c. split; [now apply nth_error_In in H | apply String.eqb_refl].
Qed.

Lemma init_details_when_matched (story : Story) (p : string) (s : State) :
  chapterIdParam s = Some p ->
  matchesChapter story p = true ->
  detailActive (outcome (initChapterNavigation story s)) = true
  /\ introActive (outcome (initChapterNavigation story s)) = false.
Proof.
  intros P M. apply matchesChapter_find in M. destruct M as (c & F).
  rewrite initChapterNavigation_eq, P, F. split; reflexivity.
Qed.

Lemma init_intro_when_unmatched (story : Story) (p : string) (s : State) :
  chapterIdParam s = Some p ->
  matchesChapter story p = false ->
  introActive (outcome (initChapterNavigation story s)) = true
  /\ detailActive (outcome (initChapterNavigation story s)) = false.
Proof.
  intros P M. rewrite initChapterNavigation_eq, P.
  destruct (find (fun chapter => String.eqb (id chapter) p)
                 (chapters story)) as [c|] eqn:F.
  - assert (matchesChapter story p = true)
      by (apply matchesChapter_find; now exists c).
    congruence.
  - split; reflexivity.
Qed.

(** C2. [updateChapter(i)] completes for every valid index [i] and persists
    the id of the chapter, and the index read afterwards is that id
    converted by [Number], not the position.  So whenever the id of the
    chapter at [i] does not convert to [i], going to chapter [i] and
    reading the current index does not return [i], although
    [initChapterNavigation] finds the chapter of that very parameter by
    comparing ids and shows the details pane. *)
Theorem C2_index_read_back_is_the_converted_id
  (story : Story) (i : nat) (c : Chapter) (s : State) :
  nth_error (chapters story) i = Some c ->
  JS.Number (Some (id c)) <> JS.ofNat i ->
  exists s', updateChapter story (JS.ofNat i) s = Normal s'
    /\ chapterIdParam s' = Some (id c)
    /\ getCurrentChapterIndex s' = JS.Number (Some (id c))
    /\ getCurrentChapterIndex s' <> JS.ofNat i
    /\ ~ readsBackAfterGoTo story i s
    /\ matchesChapter story (id c) = true
    /\ detailActive (outcome (initChapterNavigation story s')) = true.
Proof.
  intros C D.
  pose proof (updateChapter_eq story _ i c s (chapterAt_ofNat story i c C))
    as U.
  exists (chapterView story i c s).
  assert (P : chapterIdParam (chapterView story i c s) = Some (id c))
    by reflexivity.
  assert (I : getCurrentChapterIndex (chapterView story i c s)
              = JS.Number (Some (id c))) by reflexivity.
  pose proof (matchesChapter_member story i c C) as M.
  split; [exact U|]. split; [exact P|]. split; [exact I|].
  split; [now rewrite I|]. split.
  - intros (s' & E & R). rewrite U in E. injection E as <-.
    rewrite I in R. contradiction.
  - split; [exact M|]. now apply (init_details_when_matched story (id c)).
Qed.

Lemma C2_index_read_back_witness :
  nth_error (chapters storyNamed) 0 = Some (sampleChapter "graceland" "A" 0)
  /\ JS.Number (Some "graceland") <> JS.ofNat 0
  /\ (0 < chapterCount storyNamed)%nat
  /\ ~ readsBackAfterGoTo storyNamed 0 (loaded storyNamed None).
Proof.
  assert (C : nth_error (chapters storyNamed) 0
              = Some (sampleChapter "graceland" "A" 0)) by reflexivity.
  assert (D : JS.Number (Some (id (sampleChapter "graceland" "A" 0)))
              <> JS.ofNat 0) by (vm_compute; discriminate).
  split; [exact C|]. split; [exact D|].
  split; [vm_compute; lia|].
  destruct (C2_index_read_back_is_the_converted_id storyNamed 0 _
              (loaded storyNamed None) C D) as (s' & _ & _ & _ & _ & R & _).
  exact R.
Defined.

(** C4. [setPreviousChapter] at index 0 is the call [resetToIntro()] and
    ends in the intro state, parameter cleared; but the index read there
    is 0, in a store of at least one chapter the valid position of the
    first chapter, not "none". *)
Theorem C4_index_after_step_back_reads_first_chapter
  (story : Story) (s : State) :
  chapters story <> [] ->
  JS.strictEq (getCurrentChapterIndex s) (JS.ofZ 0) = true ->
  exists s', setPreviousChapter story s = Normal s'
    /\ setPreviousChapter story s = resetToIntro story s
    /\ introState s'
    /\ getCurrentChapterIndex s' = JS.ofZ 0
    /\ validIndex story (getCurrentChapterIndex s') = true
    /\ ~ retreatAtFirstResolvesToNone story s.
Proof.
  intros N Z0.
  assert (B : setPreviousChapter story s = resetToIntro story s).
  { unfold setPreviousChapter.
    rewrite (sub1_at_zero _ Z0), JSFacts.ge_ofZ. reflexivity. }
  destruct (resetToIntro_completes story s) as (s' & E & I & _ & X & _).
  assert (V : validIndex story (getCurrentChapterIndex s') = true)
    by (rewrite X; now apply validIndex_first).
  exists s'. split; [now rewrite B|]. split; [exact B|].
  split; [exact I|]. split; [exact X|]. split; [exact V|].
  intros H. destruct (H Z0) as (s'' & E' & _ & V').
  rewrite B, E in E'. injection E' as <-. congruence.
Qed.

Lemma C4_index_after_step_back_witness :
  chapters storyABC <> []
  /\ JS.strictEq (getCurrentChapterIndex atChapterA) (JS.ofZ 0) = true
  /\ ~ retreatAtFirstResolvesToNone storyABC atChapterA.
Proof.
  assert (N : chapters storyABC <> []) by discriminate.
  assert (Z0 : JS.strictEq (getCurrentChapterIndex atChapterA) (JS.ofZ 0)
               = true) by (vm_compute; reflexivity).
  split; [exact N|]. split; [exact Z0|].
  destruct (C4_index_after_step_back_reads_first_chapter storyABC atChapterA
              N Z0) as (s' & _ & _ & _ & _ & _ & R).
  exact R.
Defined.

Lemma ticks_add (story : Story) (h : positive) (a b : nat) (s : State) :
  ticks story h (a + b) s = ticks story h b (ticks story h a s).
Proof.
  revert s. induction a as [|a IH]; intros s; [reflexivity|].
  simpl. apply IH.
Qed.

Lemma ticks_fixed (story : Story) (h : positive) (k n : nat) (s : State) :
  ticks story h k s = s -> ticks story h (n * k) s = s.
Proof.
  intros F. induction n as [|n IH]; [reflexivity|].
  simpl. now rewrite ticks_add, F.
Qed.

(** C5. The timer is stopped when the index read after the step is
    [chapterCount - 1], which is not when the chapter reached is the last
    one.  With the ids 1, 2, 3 a firing at the first chapter goes to the
    third, the last: the index reads 3, the timer is not stopped and every
    later firing finds it running.  With the ids 0, -1 a firing at the
    first chapter goes to the second, the last, leaves the timer running,
    and the next firing goes back to the first chapter: autoplay wraps,
    for ever. *)
Theorem C5_autoplay_runs_past_last_and_wraps :
  (selectedMarker firedOneBased = Some 2%nat
   /\ chapterCount storyOneBased = 3%nat
   /\ getCurrentChapterIndex firedOneBased = JS.ofZ 3
   /\ intervalId firedOneBased = Some 1%positive
   /\ isLive 1 firedOneBased = true
   /\ autoplayIcon firedOneBased = PAUSE_ICON
   /\ forall n, ticks storyOneBased 1 n firedOneBased = firedOneBased)
  /\ (chapterCount storyCountdown = 2%nat
      /\ selectedMarker playingCountdown = Some 0%nat
      /\ forall n,
           ticks storyCountdown 1 (n * 2) playingCountdown = playingCountdown
           /\ selectedMarker
                (ticks storyCountdown 1 (n * 2 + 1) playingCountdown)
              = Some 1%nat
           /\ intervalId
                (ticks storyCountdown 1 (n * 2 + 1) playingCountdown)
              = Some 1%positive
           /\ isLive 1 (ticks storyCountdown 1 (n * 2 + 1) playingCountdown)
              = true).
Proof.
  split.
  - do 6 (split; [vm_compute; reflexivity|]).
    intros n.
    replace n with (n * 1)%nat by lia.
    apply ticks_fixed. vm_compute. reflexivity.
  - do 2 (split; [vm_compute; reflexivity|]).
    intros n.
    assert (F : ticks storyCountdown 1 (n * 2) playingCountdown
                = playingCountdown)
      by (apply ticks_fixed; vm_compute; reflexivity).
    split; [exact F|].
    rewrite ticks_add, F.
    repeat split; vm_compute; reflexivity.
Qed.

(** C6. A back click at an index whose predecessor is non-negative but no
    chapter position throws inside [updateChapter], before [stopAutoplay]
    is reached: the state is the one before the click, the handle is still
    set and its timer still live, where [initChapterNavigation] shows the
    intro pane for a parameter that matches no chapter.
    [setPreviousChapter] has no upper bound on [index - 1] as
    [setNextChapter] has on [index + 1]. *)
Theorem C6_back_click_throws_before_stopAutoplay
  (story : Story) (h : positive) (s : State) :
  intervalId s = Some h ->
  isLive h s = true ->
  JS.ge (JS.sub (getCurrentChapterIndex s) (JS.ofZ 1)) (JS.ofZ 0) = true ->
  validIndex story (JS.sub (getCurrentChapterIndex s) (JS.ofZ 1)) = false ->
  backButtonClick story s = Throw s
  /\ intervalId (outcome (backButtonClick story s)) = Some h
  /\ isLive h (outcome (backButtonClick story s)) = true
  /\ ~ handleNullAfter (backButtonClick story) s
  /\ (forall p, chapterIdParam s = Some p ->
        matchesChapter story p = false ->
        introActive (outcome (initChapterNavigation story s)) = true).
Proof.
  intros I L G V.
  assert (B : backButtonClick story s = Throw s).
  { unfold backButtonClick, andThen, setPreviousChapter. rewrite G.
    rewrite updateChapter_missing; [reflexivity|].
    unfold validIndex in V.
    destruct (chapterAt story _); [discriminate V | reflexivity]. }
  split; [exact B|]. unfold handleNullAfter. rewrite B. cbn [outcome].
  split; [exact I|]. split; [exact L|]. split.
  - rewrite I. discriminate.
  - intros p P M. now apply (init_intro_when_unmatched story p).
Qed.

Lemma C6_back_click_throws_witness :
  intervalId playingBeyond = Some 1%positive
  /\ isLive 1 playingBeyond = true
  /\ chapterIdParam playingBeyond = Some "7"
  /\ matchesChapter storyABC "7" = false
  /\ backButtonClick storyABC playingBeyond = Throw playingBeyond
  /\ ~ handleNullAfter (backButtonClick storyABC) playingBeyond.
Proof.
  assert (I : intervalId playingBeyond = Some 1%positive)
    by (vm_compute; reflexivity).
  assert (L : isLive 1 playingBeyond = true) by (vm_compute; reflexivity).
  assert (G : JS.ge (JS.sub (getCurrentChapterIndex playingBeyond) (JS.ofZ 1))
                    (JS.ofZ 0) = true) by (vm_compute; reflexivity).
  assert (V : validIndex storyABC
                (JS.sub (getCurrentChapterIndex playingBeyond) (JS.ofZ 1))
              = false) by (vm_compute; reflexivity).
  split; [exact I|]. split; [exact L|].
  split; [vm_compute; reflexivity|]. split; [vm_compute; reflexivity|].
  pose proof (C6_back_click_throws_before_stopAutoplay storyABC 1
                playingBeyond I L G V) as H.
  destruct H as (B & _ & _ & N & _).
  split; [exact B | exact N].
Defined.
